(** * A GoJS workshop component: graph edits, templates and binding converters

    Shallow embedding of [src/app/app.ts] (the Angular component
    [AppComponent]) together with the model / undo engine it drives.

    The component is embedded from the TypeScript source.  The engine behind
    [this.diagram.model] (graph model, undo manager, selection) is not part of
    the source tree; its operations are modelled from the specification and
    kept apart in [Module Engine]. *)

From Stdlib Require Import ZArith Lia DecimalString.
From stdpp Require Import base option list strings gmap.

(** ** JavaScript values *)

Module JS.

(** Node keys are JavaScript numbers.  The only numbers this program ever
    computes are [-Infinity] (from [Math.max()] of no arguments) and
    integers; [Int z] is the double whose value is the integer [z]. *)
Inductive number :=
| NegInfinity
| Int (z : Z).

#[global] Instance number_eq_dec : EqDecision number.
Proof. solve_decision. Defined.

(** IEEE-754 binary64 rounding (nearest, ties to even) of an integer:
    integers below [2^53] in magnitude are exact, larger ones keep 53
    significant bits. *)
Definition round_to_double (z : Z) : Z :=
  let a := Z.abs z in
  if (a <? 2 ^ 53)%Z then z
  else
    let e := (Z.log2 a - 52)%Z in
    let q := Z.shiftr a e in
    let r := (a - Z.shiftl q e)%Z in
    let half := Z.shiftl 1 (e - 1) in
    let q' :=
      if (r <? half)%Z then q
      else if (half <? r)%Z then (q + 1)%Z
      else if Z.even q then q else (q + 1)%Z in
    (Z.sgn z * Z.shiftl q' e)%Z.

(** [x + 1] on numbers: [-Infinity + 1] is [-Infinity]. *)
Definition add1 (x : number) : number :=
  match x with
  | NegInfinity => NegInfinity
  | Int z => Int (round_to_double (z + 1))
  end.

Definition max2 (x y : number) : number :=
  match x, y with
  | NegInfinity, _ => y
  | _, NegInfinity => x
  | Int a, Int b => Int (Z.max a b)
  end.

(** [Math.max(...xs)]; with no argument the result is [-Infinity]. *)
Definition Math_max (xs : list number) : number :=
  foldr max2 NegInfinity xs.

(** Number to string, as in a template literal.  [-Infinity] prints as
    such; an integer is printed with all its decimal digits, which is what
    JavaScript prints for every integer up to [2^53] in magnitude (the keys
    [add1] can reach from the example data). *)
Definition toString (x : number) : string :=
  match x with
  | NegInfinity => "-Infinity"
  | Int z => NilZero.string_of_int (Z.to_int z)
  end.

(** Values a data field can hold. *)
Inductive value :=
| VUndefined
| VNull
| VBoolean (b : bool)
| VNumber (n : number)
| VString (s : string).

#[global] Instance value_eq_dec : EqDecision value.
Proof. solve_decision. Defined.

(** Evaluating an expression either returns or throws. *)
Inductive exn := TypeError.

Inductive completion (A : Type) :=
| Returns (a : A)
| Throws (e : exn).
Arguments Returns {A} a.
Arguments Throws {A} e.

(** [a === b] *)
Definition strict_eq (a b : value) : bool := bool_decide (a = b).

(** Truthiness, for [||]. *)
Definition truthy (v : value) : bool :=
  match v with
  | VUndefined | VNull => false
  | VBoolean b => b
  | VNumber (Int z) => negb (z =? 0)%Z
  | VNumber NegInfinity => true
  | VString s => negb (bool_decide (s = ""))
  end.

(** [a || b] *)
Definition or_else (a b : value) : value := if truthy a then a else b.

Definition upper_ascii (c : Ascii.ascii) : Ascii.ascii :=
  let n := Ascii.nat_of_ascii c in
  if (97 <=? n)%nat && (n <=? 122)%nat then Ascii.ascii_of_nat (n - 32) else c.

(** [String.prototype.toUpperCase], exact on ASCII text (the status and
    role values of the node schema are ASCII words). *)
Fixpoint upper_string (s : string) : string :=
  match s with
  | EmptyString => EmptyString
  | String c rest => String (upper_ascii c) (upper_string rest)
  end.

(** [v.toUpperCase()]: a method call on [undefined] or [null] throws, and so
    does calling the missing method of a boolean or a number. *)
Definition call_toUpperCase (v : value) : completion value :=
  match v with
  | VString s => Returns (VString (upper_string s))
  | _ => Throws TypeError
  end.

(** [v?.m()]: short-circuits to [undefined] when [v] is nullish. *)
Definition optional_call (v : value) (m : value → completion value)
  : completion value :=
  match v with
  | VUndefined | VNull => Returns VUndefined
  | _ => m v
  end.

Definition map_completion {A B} (f : A → B) (c : completion A) : completion B :=
  match c with
  | Returns a => Returns (f a)
  | Throws e => Throws e
  end.

End JS.

(** ** Data records *)

(** [interface NodeData extends go.ObjectData]: a key and an open mapping of
    field names ([name], [status], [role], ...) to values.  A field that is
    absent reads as [undefined]. *)
Record NodeData := {
  key : JS.number;
  fields : gmap string JS.value
}.

(** [interface LinkData]: [{ from, to }]. *)
Record LinkData := {
  from : JS.number;
  to : JS.number
}.

#[global] Instance NodeData_eq_dec : EqDecision NodeData.
Proof. solve_decision. Defined.
#[global] Instance LinkData_eq_dec : EqDecision LinkData.
Proof. solve_decision. Defined.

(** [data.f] *)
Definition get_field (r : NodeData) (f : string) : JS.value :=
  default JS.VUndefined (fields r !! f).

Definition status (r : NodeData) : JS.value := get_field r "status".

(** Object literal [{ key, name, status, role }]. *)
Definition mkNode (k : JS.number) (name status role : string) : NodeData :=
  {| key := k;
     fields := <["role" := JS.VString role]>
               (<["status" := JS.VString status]>
               (<["name" := JS.VString name]> ∅)) |}.

(** ** Node templates: the visual object tree and its bindings *)

Module Template.

(** The conversion closures passed to [.bind(target, source, conv)], as a
    small expression language. *)
Inductive Converter :=
| CondEq (lit yes no : string)   (* v => v === lit ? yes : no *)
| IsEq (lit : string)            (* v => v === lit *)
| UpperOr (fallback : string)    (* v => v?.toUpperCase() || fallback *)
| Upper.                         (* v => v?.toUpperCase() *)

#[global] Instance Converter_eq_dec : EqDecision Converter.
Proof. solve_decision. Defined.

(** Calling a conversion closure on the value of the source field. *)
Definition apply_converter (c : Converter) (v : JS.value) : JS.completion JS.value :=
  match c with
  | CondEq lit yes no =>
      JS.Returns (if JS.strict_eq v (JS.VString lit)
                  then JS.VString yes else JS.VString no)
  | IsEq lit => JS.Returns (JS.VBoolean (JS.strict_eq v (JS.VString lit)))
  | UpperOr fallback =>
      JS.map_completion (λ u, JS.or_else u (JS.VString fallback))
                        (JS.optional_call v JS.call_toUpperCase)
  | Upper => JS.optional_call v JS.call_toUpperCase
  end.

Record Binding := {
  target : string;
  source : string;
  converter : option Converter
}.

#[global] Instance Binding_eq_dec : EqDecision Binding.
Proof. solve_decision. Defined.

(** [.bind(t, s)] and [.bind(t, s, conv)] *)
Definition bind (t s : string) : Binding :=
  {| target := t; source := s; converter := None |}.
Definition bind_conv (t s : string) (c : Converter) : Binding :=
  {| target := t; source := s; converter := Some c |}.

(** Event handlers of the [events] template. *)
Inductive Handler :=
| LogAndAlert                       (* click: console.log, alert *)
| SetShapeStroke (color : string).  (* findObject('SHAPE').stroke = color *)

(** Property values set in the templates' initialisers. *)
Inductive Prop_value :=
| PString (s : string)
| PNumber (z : Z)
| PNull
| PMargin (top right bottom left : Z)   (* new go.Margin(t, r, b, l) *)
| PSpot (name : string)                 (* go.Spot.TopRight, ... *)
| PHandler (h : Handler).

Definition Props := list (string * Prop_value).

#[warnings="-register-all"]
Inductive GraphObject :=
| Shape (figure : option string) (props : Props) (bindings : list Binding)
| TextBlock (text : option string) (props : Props) (bindings : list Binding)
| Panel (type : string) (props : Props) (elements : list GraphObject)
| Node (type : string) (props : Props) (elements : list GraphObject)
| Link (elements : list GraphObject).

(** Every binding declared anywhere in a template. *)
Fixpoint all_bindings (g : GraphObject) : list Binding :=
  match g with
  | Shape _ _ bs | TextBlock _ _ bs => bs
  | Panel _ _ es | Node _ _ es | Link es =>
      (fix go (l : list GraphObject) : list Binding :=
         match l with
         | [] => []
         | e :: l' => all_bindings e ++ go l'
         end) es
  end.

Definition converters_of (g : GraphObject) : list Converter :=
  omap converter (all_bindings g).

(** [createBasicNodeTemplate()] *)
Definition createBasicNodeTemplate : GraphObject :=
  Node "Auto" []
    [ Shape (Some "RoundedRectangle")
        [("fill", PString "white"); ("stroke", PString "#028090");
         ("strokeWidth", PNumber 2)] [];
      TextBlock None
        [("margin", PNumber 10); ("font", PString "14pt sans-serif")]
        [bind "text" "name"] ].

(** The link template installed by [initDiagram]. *)
Definition linkTemplate0 : GraphObject :=
  Link
    [ Shape None [("strokeWidth", PNumber 2); ("stroke", PString "#028090")] [];
      Shape None [("toArrow", PString "Standard"); ("fill", PString "#028090");
                  ("stroke", PNull)] [] ].

(** The node templates built in the cases of [loadExample]. *)
Definition graphobject_basics : GraphObject :=
  Node "Auto" []
    [ Shape (Some "RoundedRectangle")
        [("fill", PString "lightblue"); ("stroke", PString "black");
         ("strokeWidth", PNumber 2)] [];
      TextBlock None
        [("margin", PNumber 12); ("font", PString "bold 14pt sans-serif")]
        [bind "text" "name"] ].

Definition bindings : GraphObject :=
  Node "Auto" []
    [ Shape (Some "RoundedRectangle")
        [("stroke", PString "black"); ("strokeWidth", PNumber 2)]
        [bind_conv "fill" "status" (CondEq "active" "lightgreen" "lightcoral")];
      Panel "Vertical" [("margin", PNumber 8)]
        [ TextBlock None [("font", PString "bold 14pt sans-serif")]
            [bind "text" "name"];
          TextBlock None [("font", PString "10pt sans-serif")]
            [bind_conv "text" "status" (UpperOr "N/A")] ] ].

Definition panels_auto : GraphObject :=
  Node "Auto" []
    [ Shape (Some "RoundedRectangle")
        [("fill", PString "white"); ("stroke", PString "#028090");
         ("strokeWidth", PNumber 3)] [];
      TextBlock None
        [("margin", PNumber 16); ("font", PString "14pt sans-serif")]
        [bind "text" "name"] ].

Definition panels_spot : GraphObject :=
  Node "Spot" []
    [ Shape (Some "Circle")
        [("width", PNumber 60); ("height", PNumber 60);
         ("fill", PString "#028090"); ("stroke", PNull)] [];
      TextBlock None
        [("stroke", PString "white"); ("font", PString "bold 12pt sans-serif")]
        [bind "text" "name"];
      Shape (Some "Circle")
        [("alignment", PSpot "TopRight"); ("alignmentFocus", PSpot "Center");
         ("width", PNumber 20); ("height", PNumber 20);
         ("fill", PString "red"); ("stroke", PString "white");
         ("strokeWidth", PNumber 2)] [];
      TextBlock (Some "!")
        [("alignment", PSpot "TopRight"); ("alignmentFocus", PSpot "Center");
         ("stroke", PString "white"); ("font", PString "bold 10pt sans-serif")]
        [] ].

Definition panels_vertical : GraphObject :=
  Node "Auto" []
    [ Shape (Some "RoundedRectangle")
        [("fill", PString "white"); ("stroke", PString "#028090");
         ("strokeWidth", PNumber 2)] [];
      Panel "Vertical" [("margin", PNumber 8)]
        [ TextBlock None
            [("font", PString "bold 14pt sans-serif");
             ("margin", PMargin 0 0 4 0)]
            [bind "text" "name"];
          Panel "Horizontal" [("defaultAlignment", PSpot "Left")]
            [ Shape (Some "Circle")
                [("width", PNumber 12); ("height", PNumber 12);
                 ("margin", PMargin 0 4 0 0)]
                [bind_conv "fill" "status" (CondEq "active" "green" "gray")];
              TextBlock None [("font", PString "10pt sans-serif")]
                [bind "text" "status"] ];
          TextBlock None
            [("font", PString "italic 10pt sans-serif");
             ("stroke", PString "gray")]
            [bind "text" "role"] ] ].

Definition composition : GraphObject :=
  Node "Auto" []
    [ Shape (Some "RoundedRectangle")
        [("fill", PString "white"); ("stroke", PNull)]
        [bind_conv "fill" "role" (CondEq "manager" "#FFF4E6" "white")];
      Panel "Vertical" [("margin", PNumber 12)]
        [ Panel "Horizontal"
            [("background", PString "#028090"); ("margin", PMargin 0 0 8 0)]
            [ TextBlock None
                [("font", PString "bold 14pt sans-serif");
                 ("stroke", PString "white"); ("margin", PNumber 6)]
                [bind "text" "name"];
              Shape (Some "Circle")
                [("width", PNumber 8); ("height", PNumber 8);
                 ("fill", PString "white"); ("margin", PMargin 0 6 0 0)]
                [bind_conv "visible" "role" (IsEq "manager")] ];
          Panel "Horizontal" []
            [ Shape (Some "RoundedRectangle")
                [("width", PNumber 60); ("height", PNumber 20);
                 ("margin", PMargin 0 4 0 0)]
                [bind_conv "fill" "status" (CondEq "active" "#D1FAE5" "#FEE2E2")];
              TextBlock None
                [("font", PString "10pt sans-serif");
                 ("margin", PMargin 0 0 0 (-56))]
                [bind_conv "text" "status" Upper] ] ] ].

Definition events : GraphObject :=
  Node "Auto"
    [("click", PHandler LogAndAlert);
     ("mouseEnter", PHandler (SetShapeStroke "#02C39A"));
     ("mouseLeave", PHandler (SetShapeStroke "black"))]
    [ Shape (Some "RoundedRectangle")
        [("name", PString "SHAPE"); ("fill", PString "lightblue");
         ("stroke", PString "black"); ("strokeWidth", PNumber 2);
         ("cursor", PString "pointer")] [];
      TextBlock None
        [("margin", PNumber 12); ("font", PString "14pt sans-serif")]
        [bind "text" "name"] ].

End Template.

(** ** The model / undo engine behind [diagram.model] *)

Module Engine.

(** Modelled from the spec: the error taxonomy of section 7 ([DuplicateKey],
    [UnknownRecord], [AlreadyRecording], [NothingToUndo], [NothingToRedo]); the
    engine itself is missing from the source tree.  [NotRecording] stands for
    a commit or rollback when no transaction is open, for which the spec's
    state machine has no transition. *)
Inductive error :=
| DuplicateKey
| UnknownRecord
| AlreadyRecording
| NotRecording
| NothingToUndo
| NothingToRedo.

(** A call either completes with a value or fails with an error, leaving
    the caller's state as it was. *)
Inductive result (A : Type) :=
| Ok (a : A)
| Err (e : error).
Arguments Ok {A} a.
Arguments Err {A} e.

(** Modelled from the spec: the GraphModel of section 3, an ordered sequence
    of node records and an ordered sequence of link records. *)
Record GraphModel := {
  nodes : list NodeData;
  links : list LinkData
}.

Definition keys (ns : list NodeData) : list JS.number := key <$> ns.

(** A link references key [k] when [from == k || to == k]. *)
Definition references (k : JS.number) (l : LinkData) : Prop :=
  from l = k ∨ to l = k.

#[global] Instance references_dec k l : Decision (references k l).
Proof. unfold references. apply _. Defined.

(** Modelled from the spec: the atomic model edits of a Transaction
    (add-node, remove-node, add-link, remove-link, set-property).  Each
    descriptor carries what its inverse needs: the position in the sequence,
    and for a property the previous content of the field ([None] when the
    record had no such field). *)
Inductive edit :=
| AddNode (i : nat) (r : NodeData)
| RemoveNode (i : nat) (r : NodeData)
| AddLink (i : nat) (l : LinkData)
| RemoveLink (i : nat) (l : LinkData)
| SetProperty (i : nat) (f : string) (old new : option JS.value).

Definition insert_at {A} (i : nat) (x : A) (l : list A) : list A :=
  take i l ++ x :: drop i l.

Definition put_field (f : string) (o : option JS.value) (r : NodeData) : NodeData :=
  {| key := key r;
     fields := match o with
               | Some v => <[f := v]> (fields r)
               | None => delete f (fields r)
               end |}.

Definition with_nodes (ns : list NodeData) (g : GraphModel) : GraphModel :=
  {| nodes := ns; links := links g |}.
Definition with_links (ls : list LinkData) (g : GraphModel) : GraphModel :=
  {| nodes := nodes g; links := ls |}.

(** Modelled from the spec: applying an edit (for redo), and applying its
    inverse (for undo and rollback). *)
Definition redo_edit (e : edit) (g : GraphModel) : GraphModel :=
  match e with
  | AddNode i r => with_nodes (insert_at i r (nodes g)) g
  | RemoveNode i _ => with_nodes (delete i (nodes g)) g
  | AddLink i l => with_links (insert_at i l (links g)) g
  | RemoveLink i _ => with_links (delete i (links g)) g
  | SetProperty i f _ new => with_nodes (alter (put_field f new) i (nodes g)) g
  end.

(** Modelled from the spec: the inverse of an edit. *)
Definition undo_edit (e : edit) (g : GraphModel) : GraphModel :=
  match e with
  | AddNode i _ => with_nodes (delete i (nodes g)) g
  | RemoveNode i r => with_nodes (insert_at i r (nodes g)) g
  | AddLink i _ => with_links (delete i (links g)) g
  | RemoveLink i l => with_links (insert_at i l (links g)) g
  | SetProperty i f old _ => with_nodes (alter (put_field f old) i (nodes g)) g
  end.

(** Modelled from the spec: a transaction is redone by its edits in order,
    and undone by its inverse edits in reverse order. *)
Definition redo_edits (es : list edit) (g : GraphModel) : GraphModel :=
  foldl (λ acc e, redo_edit e acc) g es.
(** Modelled from the spec: the inverse edits, in reverse order. *)
Definition undo_edits (es : list edit) (g : GraphModel) : GraphModel :=
  foldr undo_edit g es.

(** Position and record of the node with key [k] (identity is by key). *)
Definition find_node (k : JS.number) (ns : list NodeData) : option (nat * NodeData) :=
  list_find (λ r, key r = k) ns.

(** Modelled from the spec: [addNodeData(record)] appends the record and
    fails with [DuplicateKey] if the key already exists.  (A [NodeData]
    always carries a key, so the spec's assignment of a fresh key to a record
    without one does not arise.) *)
Definition addNodeData (r : NodeData) (g : GraphModel)
  : result (GraphModel * list edit) :=
  if bool_decide (key r ∈ keys (nodes g)) then Err DuplicateKey
  else Ok (with_nodes (nodes g ++ [r]) g, [AddNode (length (nodes g)) r]).

(** Modelled from the spec: the remove-link edits of the cascade of
    [removeNodeData], one for every link referencing the key; last link
    first, so that every position is the link's position when its edit is
    applied. *)
Fixpoint cascade (k : JS.number) (ls : list LinkData) : list (nat * LinkData) :=
  match ls with
  | [] => []
  | l :: ls' =>
      (prod_map S id <$> cascade k ls')
        ++ (if decide (references k l) then [(0, l)] else [])
  end.

Definition cascade_edits (k : JS.number) (ls : list LinkData) : list edit :=
  (λ p, RemoveLink p.1 p.2) <$> cascade k ls.

(** Modelled from the spec: [removeNodeData(record)] removes the node and
    cascades removal of every link referencing it; a record that is not in
    the model is an [UnknownRecord]. *)
Definition removeNodeData (r : NodeData) (g : GraphModel)
  : result (GraphModel * list edit) :=
  match find_node (key r) (nodes g) with
  | None => Err UnknownRecord
  | Some (i, r0) =>
      Ok ({| nodes := delete i (nodes g);
             links := filter (λ l, ¬ references (key r) l) (links g) |},
          cascade_edits (key r) (links g) ++ [RemoveNode i r0])
  end.

(** Modelled from the spec: [addLinkData(record)] appends the link (an
    unresolved endpoint is not fatal). *)
Definition addLinkData (l : LinkData) (g : GraphModel)
  : result (GraphModel * list edit) :=
  Ok (with_links (links g ++ [l]) g, [AddLink (length (links g)) l]).

(** Modelled from the spec: [removeLinkData(record)]; a link that is not in
    the model is an [UnknownRecord]. *)
Definition removeLinkData (l : LinkData) (g : GraphModel)
  : result (GraphModel * list edit) :=
  match list_find (λ l', l' = l) (links g) with
  | None => Err UnknownRecord
  | Some (i, l0) => Ok (with_links (delete i (links g)) g, [RemoveLink i l0])
  end.

(** Modelled from the spec: [setDataProperty(record, field, value)] sets the
    field; when the value is unchanged it is a no-op that is still
    recorded. *)
Definition setDataProperty (r : NodeData) (f : string) (v : JS.value) (g : GraphModel)
  : result (GraphModel * list edit) :=
  match find_node (key r) (nodes g) with
  | None => Err UnknownRecord
  | Some (i, r0) =>
      let old := fields r0 !! f in
      if bool_decide (get_field r0 f = v)
      then Ok (g, [SetProperty i f old old])
      else Ok (with_nodes (<[i := put_field f (Some v) r0]> (nodes g)) g,
               [SetProperty i f old (Some v)])
  end.

(** Modelled from the spec: the Undo/Redo manager of section 4.4, a state
    machine over [{Idle, Recording}] with an edit buffer, an undo stack and a
    redo stack. *)
Inductive um_state :=
| Idle
| Recording (buffer : list edit).

(** Modelled from the spec: the manager's state, undo stack and redo stack
    (most recent transaction first). *)
Record UndoManager := {
  state : um_state;
  undoStack : list (list edit);
  redoStack : list (list edit)
}.

Definition new_UndoManager : UndoManager :=
  {| state := Idle; undoStack := []; redoStack := [] |}.

(** Modelled from the spec: a mutating operation invoked inside an active
    transaction appends its edit descriptors to the buffer; outside of one
    nothing is recorded. *)
Definition record_edits (es : list edit) (u : UndoManager) : UndoManager :=
  match state u with
  | Idle => u
  | Recording buf =>
      {| state := Recording (buf ++ es);
         undoStack := undoStack u; redoStack := redoStack u |}
  end.

(** Modelled from the spec: [startTransaction()] goes from Idle to
    Recording with an empty buffer, and fails with [AlreadyRecording] while
    Recording. *)
Definition startTransaction (u : UndoManager) : result UndoManager :=
  match state u with
  | Idle => Ok {| state := Recording [];
                  undoStack := undoStack u; redoStack := redoStack u |}
  | Recording _ => Err AlreadyRecording
  end.

(** Modelled from the spec: [commitTransaction()] goes from Recording to
    Idle, pushes the buffer onto the undo stack and clears the redo stack. *)
Definition commitTransaction (u : UndoManager) : result UndoManager :=
  match state u with
  | Idle => Err NotRecording
  | Recording buf =>
      Ok {| state := Idle; undoStack := buf :: undoStack u; redoStack := [] |}
  end.

(** Modelled from the spec: [rollbackTransaction()] goes from Recording to
    Idle and reverts the buffered edits without pushing them. *)
Definition rollbackTransaction (gu : GraphModel * UndoManager)
  : result (GraphModel * UndoManager) :=
  match state gu.2 with
  | Idle => Err NotRecording
  | Recording buf =>
      Ok (undo_edits buf gu.1,
          {| state := Idle;
             undoStack := undoStack gu.2; redoStack := redoStack gu.2 |})
  end.

(** Modelled from the spec: [undo()] pops the most recent committed
    transaction, applies its inverse edits in reverse order and pushes it
    onto the redo stack; with an empty undo stack it signals
    [NothingToUndo] and changes nothing. *)
Definition undo (gu : GraphModel * UndoManager) : result (GraphModel * UndoManager) :=
  match undoStack gu.2 with
  | [] => Err NothingToUndo
  | t :: rest =>
      Ok (undo_edits t gu.1,
          {| state := state gu.2; undoStack := rest;
             redoStack := t :: redoStack gu.2 |})
  end.

(** Modelled from the spec: [redo()], the mirror operation of [undo()]. *)
Definition redo (gu : GraphModel * UndoManager) : result (GraphModel * UndoManager) :=
  match redoStack gu.2 with
  | [] => Err NothingToRedo
  | t :: rest =>
      Ok (redo_edits t gu.1,
          {| state := state gu.2; undoStack := t :: undoStack gu.2;
             redoStack := rest |})
  end.

End Engine.

(** ** The diagram instance *)

Module Go.

(** JavaScript arrays are objects: the component's [nodeDataArray] and the
    model built over it are one array, reached through two references.  The
    heap maps array references to their current contents. *)
Definition loc := nat.

Record Heap := {
  node_arrays : gmap loc (list NodeData);
  link_arrays : gmap loc (list LinkData)
}.

(** [new go.GraphLinksModel(nodeDataArray, linkDataArray)] keeps the two
    array references it is given, and owns an undo manager. *)
Record GraphLinksModel := {
  nodeDataArray : loc;
  linkDataArray : loc;
  undoManager : Engine.UndoManager
}.

Definition new_GraphLinksModel (ns ls : loc) : GraphLinksModel :=
  {| nodeDataArray := ns; linkDataArray := ls;
     undoManager := Engine.new_UndoManager |}.

(** A selectable part is a [go.Node] or a [go.Link]; a node part stands for
    the record with its key, a link part for its link record. *)
Inductive Part :=
| NodePart (k : JS.number)
| LinkPart (l : LinkData).

Record Diagram := {
  nodeTemplate : Template.GraphObject;
  linkTemplate : Template.GraphObject;
  model : GraphLinksModel;
  selection : option Part
}.

(** The graph a model currently holds, read through its references. *)
Definition graph_of (h : Heap) (m : GraphLinksModel) : Engine.GraphModel :=
  {| Engine.nodes := default [] (node_arrays h !! nodeDataArray m);
     Engine.links := default [] (link_arrays h !! linkDataArray m) |}.

(** In-place update of the arrays a model refers to. *)
Definition write_graph (m : GraphLinksModel) (g : Engine.GraphModel) (h : Heap) : Heap :=
  {| node_arrays := <[nodeDataArray m := Engine.nodes g]> (node_arrays h);
     link_arrays := <[linkDataArray m := Engine.links g]> (link_arrays h) |}.

Definition with_undoManager (u : Engine.UndoManager) (m : GraphLinksModel)
  : GraphLinksModel :=
  {| nodeDataArray := nodeDataArray m; linkDataArray := linkDataArray m;
     undoManager := u |}.

(** The record behind a part is in the graph. *)
Definition part_live (g : Engine.GraphModel) (p : Part) : bool :=
  match p with
  | NodePart k => bool_decide (k ∈ Engine.keys (Engine.nodes g))
  | LinkPart l => bool_decide (l ∈ Engine.links g)
  end.

(** Modelled from the spec: a Part is backed by a Record, and destroying a
    Record discards its visual object; a selected part whose record has
    left the model is therefore no longer selected. *)
Definition retain_selection (g : Engine.GraphModel) (sel : option Part) : option Part :=
  match sel with
  | Some p => if part_live g p then Some p else None
  | None => None
  end.

(** [diagram.selection.first()]: the selection holds zero or one primary
    part. *)
Definition selection_first (d : Diagram) : option Part := selection d.

(** [part.data] of a node part: the record with the part's key. *)
Definition data (h : Heap) (d : Diagram) (k : JS.number) : option NodeData :=
  snd <$> Engine.find_node k (Engine.nodes (graph_of h (model d))).

(** [diagram.nodeTemplate = t] *)
Definition set_nodeTemplate (t : Template.GraphObject) (d : Diagram) : Diagram :=
  {| nodeTemplate := t; linkTemplate := linkTemplate d;
     model := model d; selection := selection d |}.

(** Modelled from the spec: [diagram.model = m] forces a full rebuild of the
    parts from the model's data, and the selection is cleared on the model
    reset. *)
Definition set_model (m : GraphLinksModel) (d : Diagram) : Diagram :=
  {| nodeTemplate := nodeTemplate d; linkTemplate := linkTemplate d;
     model := m; selection := None |}.

(** The diagram after its model changed: the model's undo manager is [u],
    its graph is [g]; templates are untouched. *)
Definition after_edit (u : Engine.UndoManager) (g : Engine.GraphModel) (d : Diagram)
  : Diagram :=
  {| nodeTemplate := nodeTemplate d; linkTemplate := linkTemplate d;
     model := with_undoManager u (model d);
     selection := retain_selection g (selection d) |}.

(** Modelled from the spec: a mutating call on [diagram.model] applies
    immediately to the graph the model refers to (the arrays are updated in
    place) and hands its edit descriptors to the undo manager. *)
Definition model_call
    (op : Engine.GraphModel → Engine.result (Engine.GraphModel * list Engine.edit))
    (h : Heap) (d : Diagram) : Engine.result (Heap * Diagram) :=
  match op (graph_of h (model d)) with
  | Engine.Err e => Engine.Err e
  | Engine.Ok (g, es) =>
      Engine.Ok (write_graph (model d) g h,
                 after_edit (Engine.record_edits es (undoManager (model d))) g d)
  end.

(** Modelled from the spec: starting and committing a transaction on the
    undo manager of [diagram.model]. *)
Definition um_call (op : Engine.UndoManager → Engine.result Engine.UndoManager)
    (h : Heap) (d : Diagram) : Engine.result (Heap * Diagram) :=
  match op (undoManager (model d)) with
  | Engine.Err e => Engine.Err e
  | Engine.Ok u => Engine.Ok (h, after_edit u (graph_of h (model d)) d)
  end.

(** Modelled from the spec: rollback, undo and redo, which rewrite the
    model's arrays in place through the edits' inverses. *)
Definition history_call
    (op : Engine.GraphModel * Engine.UndoManager
          → Engine.result (Engine.GraphModel * Engine.UndoManager))
    (h : Heap) (d : Diagram) : Engine.result (Heap * Diagram) :=
  match op (graph_of h (model d), undoManager (model d)) with
  | Engine.Err e => Engine.Err e
  | Engine.Ok (g, u) => Engine.Ok (write_graph (model d) g h, after_edit u g d)
  end.

(** Modelled from the spec: [select(part)] replaces the primary selection
    (only a part that exists can be picked). *)
Definition select (p : Part) (h : Heap) (d : Diagram) : Diagram :=
  if part_live (graph_of h (model d)) p
  then {| nodeTemplate := nodeTemplate d; linkTemplate := linkTemplate d;
          model := model d; selection := Some p |}
  else d.

End Go.

(** ** The component *)

(** The component's two readonly array fields are references into the
    heap (node arrays and link arrays are kept in separate maps). *)
Definition nodeDataArray : Go.loc := 0%nat.
Definition linkDataArray : Go.loc := 0%nat.

(** The arrays of the empty model a new [go.Diagram] starts with. *)
Definition default_model_arrays : Go.loc := 1%nat.

(** State of the page: the heap, and the component's mutable members (the
    [currentExample] signal and the diagram).  The [title] signal is never
    set after construction, and [logModelData()] / [logSelectedPart()] only
    write to the console; they are left out. *)
Record State := {
  heap : Go.Heap;
  currentExample : string;
  diagram : Go.Diagram
}.

Definition with_diagram (hd : Go.Heap * Go.Diagram) (s : State) : State :=
  {| heap := hd.1; currentExample := currentExample s; diagram := hd.2 |}.

Definition set_diagram (d : Go.Diagram) (s : State) : State :=
  {| heap := heap s; currentExample := currentExample s; diagram := d |}.

Definition lift (c : Go.Heap → Go.Diagram → Engine.result (Go.Heap * Go.Diagram))
    (s : State) : Engine.result State :=
  match c (heap s) (diagram s) with
  | Engine.Ok hd => Engine.Ok (with_diagram hd s)
  | Engine.Err e => Engine.Err e
  end.

(** [this.nodeDataArray] and [this.linkDataArray], dereferenced. *)
Definition this_nodes (s : State) : list NodeData :=
  default [] (Go.node_arrays (heap s) !! nodeDataArray).
Definition this_links (s : State) : list LinkData :=
  default [] (Go.link_arrays (heap s) !! linkDataArray).

(** The records of [this.diagram.model]. *)
Definition model_nodes (s : State) : list NodeData :=
  Engine.nodes (Go.graph_of (heap s) (Go.model (diagram s))).
Definition model_links (s : State) : list LinkData :=
  Engine.links (Go.graph_of (heap s) (Go.model (diagram s))).

(** The example data of the field initialisers. *)
Definition nodeDataArray0 : list NodeData :=
  [ mkNode (JS.Int 1) "Alice" "active" "manager";
    mkNode (JS.Int 2) "Bob" "active" "employee";
    mkNode (JS.Int 3) "Charlie" "inactive" "employee" ].

Definition linkDataArray0 : list LinkData :=
  [ {| from := JS.Int 1; to := JS.Int 2 |};
    {| from := JS.Int 1; to := JS.Int 3 |} ].

Definition examples : list (string * string) :=
  [ ("mental-model", "Mental Model: Diagram → Model → Parts");
    ("graphobject-basics", "GraphObject Basics");
    ("bindings", "Bindings (null-safe)");
    ("panels-auto", "Panel: Auto");
    ("panels-spot", "Panel: Spot");
    ("panels-vertical", "Panel: Vertical/Horizontal");
    ("composition", "Composition Pattern");
    ("events", "Events & Interactions") ].

(** [examples.find(e => e.id === currentExample())?.name] *)
Definition currentExampleName (s : State) : option string :=
  snd <$> List.find (λ e, bool_decide (e.1 = currentExample s)) examples.

(** [initDiagram()]: a new diagram (with its own empty model), the basic
    node template and the link template.  The tree layout it configures
    positions the nodes only and is left out; undo is enabled, which is the
    engine's undo manager attached to every model. *)
Definition initDiagram : Go.Diagram :=
  {| Go.nodeTemplate := Template.createBasicNodeTemplate;
     Go.linkTemplate := Template.linkTemplate0;
     Go.model := Go.new_GraphLinksModel default_model_arrays default_model_arrays;
     Go.selection := None |}.

(** [updateModel()] *)
Definition updateModel (s : State) : State :=
  set_diagram
    (Go.set_model (Go.new_GraphLinksModel nodeDataArray linkDataArray) (diagram s))
    s.

Definition set_template (t : Template.GraphObject) (s : State) : State :=
  set_diagram (Go.set_nodeTemplate t (diagram s)) s.

(** [loadExample(exampleId)]: the [switch] has no default case. *)
Definition loadExample (exampleId : string) (s : State) : State :=
  if decide (exampleId = "mental-model") then
    updateModel (set_template Template.createBasicNodeTemplate s)
  else if decide (exampleId = "graphobject-basics") then
    updateModel (set_template Template.graphobject_basics s)
  else if decide (exampleId = "bindings") then
    updateModel (set_template Template.bindings s)
  else if decide (exampleId = "panels-auto") then
    updateModel (set_template Template.panels_auto s)
  else if decide (exampleId = "panels-spot") then
    updateModel (set_template Template.panels_spot s)
  else if decide (exampleId = "panels-vertical") then
    updateModel (set_template Template.panels_vertical s)
  else if decide (exampleId = "composition") then
    updateModel (set_template Template.composition s)
  else if decide (exampleId = "events") then
    updateModel (set_template Template.events s)
  else s.

(** [selectExample(exampleId)] *)
Definition selectExample (exampleId : string) (s : State) : State :=
  loadExample exampleId
    {| heap := heap s; currentExample := exampleId; diagram := diagram s |}.

(** The page after the field initialisers and [initDiagram()]: the example
    data in the component's arrays, and the new diagram. *)
Definition constructed : State :=
  {| heap := {| Go.node_arrays := <[default_model_arrays := []]> {[nodeDataArray := nodeDataArray0]};
                Go.link_arrays := <[default_model_arrays := []]> {[linkDataArray := linkDataArray0]} |};
     currentExample := "mental-model";
     diagram := initDiagram |}.

(** The page once [ngAfterViewInit()] has run: [initDiagram()], then
    [loadExample('mental-model')]. *)
Definition ngAfterViewInit : State := loadExample "mental-model" constructed.

(** [Math.max(...this.nodeDataArray.map(n => n.key)) + 1] *)
Definition newKey (s : State) : JS.number :=
  JS.add1 (JS.Math_max (key <$> this_nodes s)).

(** [addNode()] *)
Definition addNode (s : State) : Engine.result State :=
  lift (Go.model_call
          (Engine.addNodeData
             (mkNode (newKey s) ("Person " +:+ JS.toString (newKey s))
                     "active" "employee")))
       s.

(** [removeSelectedNode()] *)
Definition removeSelectedNode (s : State) : Engine.result State :=
  match Go.selection_first (diagram s) with
  | Some (Go.NodePart k) =>
      match Go.data (heap s) (diagram s) k with
      | Some data => lift (Go.model_call (Engine.removeNodeData data)) s
      | None => Engine.Err Engine.UnknownRecord
      end
  | _ => Engine.Ok s
  end.

(** [toggleStatus()] *)
Definition toggleStatus (s : State) : Engine.result State :=
  match Go.selection_first (diagram s) with
  | Some (Go.NodePart k) =>
      match Go.data (heap s) (diagram s) k with
      | Some data =>
          lift (Go.model_call
                  (Engine.setDataProperty data "status"
                     (if JS.strict_eq (status data) (JS.VString "active")
                      then JS.VString "inactive" else JS.VString "active")))
               s
      | None => Engine.Err Engine.UnknownRecord
      end
  | _ => Engine.Ok s
  end.

(** The undo manager of the diagram's model, as driven from the page. *)
Definition startTransaction : State → Engine.result State :=
  lift (Go.um_call Engine.startTransaction).
Definition commitTransaction : State → Engine.result State :=
  lift (Go.um_call Engine.commitTransaction).
Definition rollbackTransaction : State → Engine.result State :=
  lift (Go.history_call Engine.rollbackTransaction).
Definition undo : State → Engine.result State :=
  lift (Go.history_call Engine.undo).
Definition redo : State → Engine.result State :=
  lift (Go.history_call Engine.redo).

(** Picking a part with the pointer. *)
Definition select (p : Go.Part) (s : State) : State :=
  set_diagram (Go.select p (heap s) (diagram s)) s.

(** ** Vocabulary of the properties *)

(** The state after a call: a failed call leaves the page as it was. *)
Definition after (r : Engine.result State) (s : State) : State :=
  match r with
  | Engine.Ok s' => s'
  | Engine.Err _ => s
  end.

(** The diagram's model is built over the component's own arrays. *)
Definition aliased (s : State) : Prop :=
  Go.nodeDataArray (Go.model (diagram s)) = nodeDataArray
  ∧ Go.linkDataArray (Go.model (diagram s)) = linkDataArray.

(** The graph and the undo manager of [this.diagram.model]. *)
Definition graph (s : State) : Engine.GraphModel :=
  Go.graph_of (heap s) (Go.model (diagram s)).
Definition undoManager (s : State) : Engine.UndoManager :=
  Go.undoManager (Go.model (diagram s)).

(** A transaction opened on graph [g0] is being recorded: the buffered edits
    lead from [g0] to the current graph, and their inverses lead back. *)
Definition recording (g0 : Engine.GraphModel) (s : State) : Prop :=
  ∃ buf,
    Engine.state (undoManager s) = Engine.Recording buf
    ∧ Engine.undo_edits buf (graph s) = g0
    ∧ Engine.redo_edits buf g0 = graph s.

(** Status of the node with key [k] in the diagram's model. *)
Definition node_status (s : State) (k : JS.number) : option JS.value :=
  status <$> Go.data (heap s) (diagram s) k.

(** The ids of the examples catalog. *)
Definition known_ids : list string := fst <$> examples.

(** The node template each case of [loadExample] installs, as a table. *)
Definition template_table : list (string * Template.GraphObject) :=
  [ ("mental-model", Template.createBasicNodeTemplate);
    ("graphobject-basics", Template.graphobject_basics);
    ("bindings", Template.bindings);
    ("panels-auto", Template.panels_auto);
    ("panels-spot", Template.panels_spot);
    ("panels-vertical", Template.panels_vertical);
    ("composition", Template.composition);
    ("events", Template.events) ].

(** What a conversion closure yields for a source field that is missing or
    [undefined]. *)
Definition fallback (c : Template.Converter) : JS.value :=
  match c with
  | Template.CondEq _ _ no => JS.VString no
  | Template.IsEq _ => JS.VBoolean false
  | Template.UpperOr fb => JS.VString fb
  | Template.Upper => JS.VUndefined
  end.

(** Model operations, to speak about arbitrary transactions. *)
Inductive operation :=
| OpAddNode (r : NodeData)
| OpRemoveNode (r : NodeData)
| OpAddLink (l : LinkData)
| OpRemoveLink (l : LinkData)
| OpSetProperty (r : NodeData) (f : string) (v : JS.value).

Definition perform (o : operation) (g : Engine.GraphModel)
  : Engine.result (Engine.GraphModel * list Engine.edit) :=
  match o with
  | OpAddNode r => Engine.addNodeData r g
  | OpRemoveNode r => Engine.removeNodeData r g
  | OpAddLink l => Engine.addLinkData l g
  | OpRemoveLink l => Engine.removeLinkData l g
  | OpSetProperty r f v => Engine.setDataProperty r f v g
  end.

(** One call on [diagram.model], and a sequence of them. *)
Definition call (o : operation) (s : State) : State :=
  after (lift (Go.model_call (perform o)) s) s.

Definition calls (os : list operation) (s : State) : State :=
  foldl (λ acc o, call o acc) s os.

(** What a user can do on the page. *)
Inductive action :=
| Pick (p : Go.Part)
| AddNode
| RemoveSelectedNode
| ToggleStatus
| SelectExample (id : string).

Definition step (a : action) (s : State) : State :=
  match a with
  | Pick p => select p s
  | AddNode => after (addNode s) s
  | RemoveSelectedNode => after (removeSelectedNode s) s
  | ToggleStatus => after (toggleStatus s) s
  | SelectExample id => selectExample id s
  end.

Definition run (acts : list action) (s : State) : State :=
  foldl (λ acc a, step a acc) s acts.

(** The page showing the given node and link arrays (any data in place of
    the example data). *)
Definition page_with (ns : list NodeData) (ls : list LinkData) : State :=
  updateModel
    {| heap := {| Go.node_arrays := {[nodeDataArray := ns]};
                  Go.link_arrays := {[linkDataArray := ls]} |};
       currentExample := "mental-model";
       diagram := initDiagram |}.

(** A selected part is backed by a record of the model. *)
Definition selection_live (s : State) : Prop :=
  ∀ p, Go.selection (diagram s) = Some p → Go.part_live (graph s) p = true.

(** The claim that a toggle is reverted by the next [undo()]. *)
Definition toggle_then_undo_restores (s : State) (k : JS.number) : Prop :=
  ∃ s1 s2,
    toggleStatus s = Engine.Ok s1
    ∧ node_status s1 k = Some (JS.VString "inactive")
    ∧ undo s1 = Engine.Ok s2
    ∧ node_status s2 k = Some (JS.VString "active").

(** The claim that an unknown id leaves the whole page unchanged. *)
Definition unknown_id_is_noop (id : string) (s : State) : Prop :=
  id ∉ known_ids → selectExample id s = s.

(** ** Logging and the event handlers of the [events] template *)

(** [logModelData()]: the object written to the console, the node and link
    arrays of the diagram's model. *)
Definition logModelData (s : State) : list NodeData * list LinkData :=
  (model_nodes s, model_links s).

Module Events.

(** The properties an object was built with ([Link] takes none here). *)
Definition props_of (g : Template.GraphObject) : Template.Props :=
  match g with
  | Template.Shape _ ps _ | Template.TextBlock _ ps _
  | Template.Panel _ ps _ | Template.Node _ ps _ => ps
  | Template.Link _ => []
  end.

Definition with_props (ps : Template.Props) (g : Template.GraphObject)
  : Template.GraphObject :=
  match g with
  | Template.Shape f _ bs => Template.Shape f ps bs
  | Template.TextBlock t _ bs => Template.TextBlock t ps bs
  | Template.Panel ty _ es => Template.Panel ty ps es
  | Template.Node ty _ es => Template.Node ty ps es
  | Template.Link es => Template.Link es
  end.

(** Reading a property, and the assignment [obj.k = v]. *)
Fixpoint get_prop (k : string) (ps : Template.Props) : option Template.Prop_value :=
  match ps with
  | [] => None
  | (k', v) :: ps' => if decide (k' = k) then Some v else get_prop k ps'
  end.

Fixpoint set_prop (k : string) (v : Template.Prop_value) (ps : Template.Props)
  : Template.Props :=
  match ps with
  | [] => [(k, v)]
  | (k', v') :: ps' =>
      if decide (k' = k) then (k, v) :: ps' else (k', v') :: set_prop k v ps'
  end.

(** [obj.name === n] *)
Definition is_named (n : string) (g : Template.GraphObject) : bool :=
  match get_prop "name" (props_of g) with
  | Some (Template.PString m) => bool_decide (m = n)
  | _ => false
  end.

(** The first element, from the left, on which [f] succeeds: its result
    ([find_first]), or the list with that element replaced
    ([update_first]). *)
Definition find_first {A B} (f : A → option B) : list A → option B :=
  fix go l :=
    match l with
    | [] => None
    | e :: l' => match f e with Some o => Some o | None => go l' end
    end.

Definition update_first {A} (f : A → option A) : list A → option (list A) :=
  fix go l :=
    match l with
    | [] => None
    | e :: l' => match f e with Some e' => Some (e' :: l') | None => cons e <$> go l' end
    end.

(** [part.findObject(n)]: the visual tree is searched from the part itself,
    depth first; the result is [None] when no object has that name. *)
Fixpoint find_named (n : string) (g : Template.GraphObject)
  : option Template.GraphObject :=
  if is_named n g then Some g
  else
    match g with
    | Template.Panel _ _ es | Template.Node _ _ es | Template.Link es =>
        find_first (find_named n) es
    | _ => None
    end.

(** [const o = part.findObject(n); if (o) o.k = v]: the part after the
    assignment, or [None] when no object has that name. *)
Fixpoint assign_named (n k : string) (v : Template.Prop_value)
    (g : Template.GraphObject) : option Template.GraphObject :=
  if is_named n g then Some (with_props (set_prop k v (props_of g)) g)
  else
    match g with
    | Template.Panel ty ps es =>
        Template.Panel ty ps <$> update_first (assign_named n k v) es
    | Template.Node ty ps es =>
        Template.Node ty ps <$> update_first (assign_named n k v) es
    | Template.Link es => Template.Link <$> update_first (assign_named n k v) es
    | _ => None
    end.

(** The stroke of the object named [SHAPE], if there is one with a stroke. *)
Definition shape_stroke (part : Template.GraphObject) : option Template.Prop_value :=
  o ← find_named "SHAPE" part; get_prop "stroke" (props_of o).

(** Running a handler on the part it is attached to: what becomes of the
    part's visual tree.  The click handler only logs and alerts. *)
Definition handle (h : Template.Handler) (part : Template.GraphObject)
  : Template.GraphObject :=
  match h with
  | Template.LogAndAlert => part
  | Template.SetShapeStroke color =>
      default part (assign_named "SHAPE" "stroke" (Template.PString color) part)
  end.

(** Dispatch of a pointer event ([click], [mouseEnter], [mouseLeave]) to the
    handler the part's template declares, if any. *)
Definition fire (event : string) (part : Template.GraphObject) : Template.GraphObject :=
  match get_prop event (props_of part) with
  | Some (Template.PHandler h) => handle h part
  | _ => part
  end.

End Events.

(** The role converters of the [composition] template, and the shape of the
    inputs on which a conversion closure throws. *)
Definition uses_toUpperCase (c : Template.Converter) : Prop :=
  c = Template.Upper ∨ ∃ fb, c = Template.UpperOr fb.

Definition boolean_or_number (v : JS.value) : Prop :=
  (∃ b, v = JS.VBoolean b) ∨ (∃ n, v = JS.VNumber n).

(** A field value of the declared type [string | undefined] (or [null]). *)
Definition string_or_nullish (v : JS.value) : Prop :=
  v = JS.VUndefined ∨ v = JS.VNull ∨ ∃ s, v = JS.VString s.

(** A string of ASCII characters only (codes below 128); on these
    [JS.upper_string] is [String.prototype.toUpperCase] exactly. *)
Fixpoint ascii_only (s : string) : Prop :=
  match s with
  | EmptyString => True
  | String c rest => (Ascii.nat_of_ascii c < 128)%nat ∧ ascii_only rest
  end.

(** A field value that is [undefined], [null] or a string of ASCII
    characters. *)
Definition ascii_or_nullish (v : JS.value) : Prop :=
  v = JS.VUndefined ∨ v = JS.VNull ∨ ∃ s, v = JS.VString s ∧ ascii_only s.

(** The signal and the node template agree: when [currentExample] is an id
    of the table, the diagram's node template is that id's template. *)
Definition template_matches_example (s : State) : Prop :=
  ∀ t, (currentExample s, t) ∈ template_table → Go.nodeTemplate (diagram s) = t.

(** * Properties *)

(** Membership in, and absence from, an explicit list. *)
Ltac in_list :=
  repeat first [apply list_elem_of_here | apply list_elem_of_further].

Ltac not_in_list :=
  let H := fresh "Hin" in
  intros H;
  repeat (apply elem_of_cons in H as [H | H]; [discriminate H|]);
  by apply elem_of_nil in H.

(** ** Binding converters *)

Lemma get_field_missing (r : NodeData) (f : string) :
  fields r !! f = None ∨ fields r !! f = Some JS.VUndefined →
  get_field r f = JS.VUndefined.
Proof. unfold get_field. by intros [-> | ->]. Qed.

(** On [undefined] a conversion closure returns its fallback; none throws. *)
Lemma apply_converter_undefined (c : Template.Converter) :
  Template.apply_converter c JS.VUndefined = JS.Returns (fallback c).
Proof. by destruct c. Qed.

(** Without the [?.] guard the call would throw on [undefined]. *)
Lemma call_toUpperCase_undefined :
  JS.call_toUpperCase JS.VUndefined = JS.Throws JS.TypeError.
Proof. reflexivity. Qed.

(** The conversion closures the eight templates declare, in order. *)
Lemma template_converters :
  flat_map (λ e, Template.converters_of e.2) template_table
  = [ Template.CondEq "active" "lightgreen" "lightcoral";
      Template.UpperOr "N/A";
      Template.CondEq "active" "green" "gray";
      Template.CondEq "manager" "#FFF4E6" "white";
      Template.IsEq "manager";
      Template.CondEq "active" "#D1FAE5" "#FEE2E2";
      Template.Upper ].
Proof. reflexivity. Qed.

Lemma converter_in_table id t b c :
  (id, t) ∈ template_table → b ∈ Template.all_bindings t →
  Template.converter b = Some c →
  c ∈ flat_map (λ e, Template.converters_of e.2) template_table.
Proof.
  intros Ht Hb Hc. apply list_elem_of_In, in_flat_map.
  exists (id, t). split; [by apply list_elem_of_In|].
  apply list_elem_of_In. unfold Template.converters_of. simpl.
  apply list_elem_of_omap. eauto.
Qed.

(** C8: every binding converter declared in the templates, evaluated on a
    record whose source field is missing or [undefined], returns (it does not
    throw), and what it returns is its own fallback: one of ['lightcoral'],
    ['N/A'], ['gray'], ['white'], [false], ['#FEE2E2'] or [undefined]. *)
Theorem converters_are_null_safe id t b c (r : NodeData) :
  (id, t) ∈ template_table →
  b ∈ Template.all_bindings t →
  Template.converter b = Some c →
  fields r !! Template.source b = None
    ∨ fields r !! Template.source b = Some JS.VUndefined →
  Template.apply_converter c (get_field r (Template.source b))
    = JS.Returns (fallback c)
  ∧ fallback c ∈ [ JS.VString "lightcoral"; JS.VString "N/A"; JS.VString "gray";
                   JS.VString "white"; JS.VBoolean false;
                   JS.VString "#FEE2E2"; JS.VUndefined ].
Proof.
  intros Ht Hb Hc Hr. split.
  - rewrite (get_field_missing _ _ Hr). apply apply_converter_undefined.
  - pose proof (converter_in_table _ _ _ _ Ht Hb Hc) as Hin.
    rewrite template_converters in Hin.
    repeat (apply elem_of_cons in Hin as [-> | Hin]; [simpl; in_list|]).
    by apply elem_of_nil in Hin.
Qed.

Lemma converters_are_null_safe_witness :
  Template.apply_converter (Template.UpperOr "N/A")
    (get_field {| key := JS.Int 9; fields := ∅ |} "status")
  = JS.Returns (JS.VString "N/A").
Proof.
  refine (proj1 (converters_are_null_safe "bindings" Template.bindings
            (Template.bind_conv "text" "status" (Template.UpperOr "N/A"))
            (Template.UpperOr "N/A") {| key := JS.Int 9; fields := ∅ |}
            _ _ _ _)).
  - unfold template_table. in_list.
  - simpl. in_list.
  - reflexivity.
  - left. reflexivity.
Defined.

(** ** Selecting an example *)

Lemma loadExample_currentExample id s :
  currentExample (loadExample id s) = currentExample s.
Proof. unfold loadExample. by repeat case_decide. Qed.

Lemma known_ids_eq :
  known_ids = [ "mental-model"; "graphobject-basics"; "bindings"; "panels-auto";
                "panels-spot"; "panels-vertical"; "composition"; "events" ].
Proof. reflexivity. Qed.

Lemma template_table_ids : fst <$> template_table = known_ids.
Proof. reflexivity. Qed.

Lemma loadExample_unknown id s : id ∉ known_ids → loadExample id s = s.
Proof.
  rewrite known_ids_eq. intros Hid. unfold loadExample.
  repeat (case_decide; [subst id; exfalso; apply Hid; in_list|]).
  reflexivity.
Qed.

Lemma selectExample_currentExample id s :
  currentExample (selectExample id s) = id.
Proof. unfold selectExample. by rewrite loadExample_currentExample. Qed.

(** C9: for every string [id], known or not, [selectExample(id)] sets the
    [currentExample] signal to [id]; [currentExampleName] is then the catalog
    name of [id] when [id] is in the catalog, and [undefined] otherwise. *)
Theorem selectExample_sets_currentExample (id : string) (s : State) :
  currentExample (selectExample id s) = id
  ∧ (∀ name, (id, name) ∈ examples →
       currentExampleName (selectExample id s) = Some name)
  ∧ (id ∉ known_ids → currentExampleName (selectExample id s) = None).
Proof.
  pose proof (selectExample_currentExample id s) as Hcur.
  split_and!; [done| |].
  - intros name Hin. unfold currentExampleName. rewrite Hcur.
    unfold examples in Hin.
    repeat (apply elem_of_cons in Hin as [Hin | Hin];
            [by injection Hin as -> ->|]).
    by apply elem_of_nil in Hin.
  - rewrite known_ids_eq. intros Hid. unfold currentExampleName.
    rewrite Hcur. unfold examples. simpl.
    repeat (rewrite bool_decide_eq_false_2
              by (intros <-; apply Hid; in_list)).
    reflexivity.
Qed.

Lemma selectExample_sets_currentExample_witness :
  currentExampleName (selectExample "events" ngAfterViewInit)
    = Some "Events & Interactions"
  ∧ currentExampleName (selectExample "no-such-example" ngAfterViewInit) = None.
Proof.
  split.
  - apply (selectExample_sets_currentExample "events" ngAfterViewInit).
    unfold examples. in_list.
  - apply (selectExample_sets_currentExample "no-such-example" ngAfterViewInit).
    rewrite known_ids_eq. not_in_list.
Defined.

(** C5, as stated, fails: an unknown id does change the page, because the
    [currentExample] signal is set before the [switch]. *)
Lemma selectExample_unknown_not_noop :
  ¬ unknown_id_is_noop "no-such-example" ngAfterViewInit.
Proof.
  unfold unknown_id_is_noop. intros H.
  assert (Hid : "no-such-example" ∉ known_ids)
    by (rewrite known_ids_eq; not_in_list).
  apply H in Hid. apply (f_equal currentExample) in Hid.
  rewrite selectExample_currentExample in Hid.
  discriminate Hid.
Qed.

(** C5, amended: for an id outside the catalog, [selectExample(id)] does not
    fail and changes nothing but the [currentExample] signal, which becomes
    [id]; heap, node template, model and selection are as before. *)
Theorem selectExample_unknown_id (id : string) (s : State) :
  id ∉ known_ids →
  selectExample id s
  = {| heap := heap s; currentExample := id; diagram := diagram s |}.
Proof. intros Hid. unfold selectExample. by apply loadExample_unknown. Qed.

Lemma selectExample_unknown_id_witness :
  selectExample "no-such-example" ngAfterViewInit
  = {| heap := heap ngAfterViewInit; currentExample := "no-such-example";
       diagram := diagram ngAfterViewInit |}.
Proof.
  apply (selectExample_unknown_id "no-such-example" ngAfterViewInit).
  rewrite known_ids_eq. not_in_list.
Defined.

(** ** Aliasing of the component's arrays and the model's *)

Lemma model_call_refs op h d h' d' :
  Go.model_call op h d = Engine.Ok (h', d') →
  Go.nodeDataArray (Go.model d') = Go.nodeDataArray (Go.model d)
  ∧ Go.linkDataArray (Go.model d') = Go.linkDataArray (Go.model d).
Proof.
  unfold Go.model_call. destruct (op _) as [[g es]|e]; [|done].
  by intros [= <- <-].
Qed.

Lemma lift_model_call_aliased op s s' :
  lift (Go.model_call op) s = Engine.Ok s' → aliased s → aliased s'.
Proof.
  unfold lift.
  destruct (Go.model_call op (heap s) (diagram s)) as [[h' d']|e] eqn:E; [|done].
  intros [= <-] [Hn Hl]. apply model_call_refs in E as [E1 E2].
  split; simpl; congruence.
Qed.

Lemma updateModel_aliased s : aliased (updateModel s).
Proof. done. Qed.

Lemma loadExample_aliased id s : aliased s → aliased (loadExample id s).
Proof.
  intros Hs. unfold loadExample.
  repeat (case_decide; [apply updateModel_aliased|]). done.
Qed.

Lemma addNode_aliased s s' : addNode s = Engine.Ok s' → aliased s → aliased s'.
Proof. apply lift_model_call_aliased. Qed.

Lemma removeSelectedNode_aliased s s' :
  removeSelectedNode s = Engine.Ok s' → aliased s → aliased s'.
Proof.
  unfold removeSelectedNode.
  destruct (Go.selection_first (diagram s)) as [[k|l]|]; try by intros [= <-].
  destruct (Go.data _ _ k); [|done]. apply lift_model_call_aliased.
Qed.

Lemma toggleStatus_aliased s s' :
  toggleStatus s = Engine.Ok s' → aliased s → aliased s'.
Proof.
  unfold toggleStatus.
  destruct (Go.selection_first (diagram s)) as [[k|l]|]; try by intros [= <-].
  destruct (Go.data _ _ k); [|done]. apply lift_model_call_aliased.
Qed.

Lemma select_aliased p s : aliased s → aliased (select p s).
Proof. unfold select, Go.select, aliased. simpl. by case_match. Qed.

Lemma step_aliased a s : aliased s → aliased (step a s).
Proof.
  intros Hs. destruct a as [p| | | |id]; simpl.
  - by apply select_aliased.
  - destruct (addNode s) eqn:E; simpl; eauto using addNode_aliased.
  - destruct (removeSelectedNode s) eqn:E; simpl;
      eauto using removeSelectedNode_aliased.
  - destruct (toggleStatus s) eqn:E; simpl; eauto using toggleStatus_aliased.
  - by apply loadExample_aliased.
Qed.

Lemma run_aliased acts s : aliased s → aliased (run acts s).
Proof.
  revert s. induction acts as [|a acts IH]; intros s Hs; simpl; [done|].
  apply IH. by apply step_aliased.
Qed.

Lemma ngAfterViewInit_aliased : aliased ngAfterViewInit.
Proof. done. Qed.

Lemma selectExample_known id s :
  id ∈ known_ids →
  ∃ t, (id, t) ∈ template_table
       ∧ selectExample id s
         = {| heap := heap s; currentExample := id;
              diagram := Go.set_model
                           (Go.new_GraphLinksModel nodeDataArray linkDataArray)
                           (Go.set_nodeTemplate t (diagram s)) |}.
Proof.
  rewrite known_ids_eq. intros Hid.
  repeat (apply elem_of_cons in Hid as [-> | Hid];
          [eexists; split; [|reflexivity]; unfold template_table; in_list|]).
  by apply elem_of_nil in Hid.
Qed.



(** ** Calls without a selected node *)

(** C4: when nothing is selected, or the selected part is a link and not a
    node, [removeSelectedNode()] and [toggleStatus()] complete without error
    and return the page exactly as it was: heap (node and link data), model,
    selection, templates and signal. *)
Theorem no_selected_node_is_noop (s : State) :
  Go.selection (diagram s) = None
    ∨ (∃ l, Go.selection (diagram s) = Some (Go.LinkPart l)) →
  removeSelectedNode s = Engine.Ok s ∧ toggleStatus s = Engine.Ok s.
Proof.
  unfold removeSelectedNode, toggleStatus, Go.selection_first.
  by intros [-> | [l ->]].
Qed.

Lemma no_selected_node_is_noop_witness :
  let s := select (Go.LinkPart {| from := JS.Int 1; to := JS.Int 2 |}) ngAfterViewInit in
  (removeSelectedNode ngAfterViewInit = Engine.Ok ngAfterViewInit
   ∧ toggleStatus ngAfterViewInit = Engine.Ok ngAfterViewInit)
  ∧ (removeSelectedNode s = Engine.Ok s ∧ toggleStatus s = Engine.Ok s).
Proof.
  split.
  - apply (no_selected_node_is_noop ngAfterViewInit). left. reflexivity.
  - apply (no_selected_node_is_noop
             (select (Go.LinkPart {| from := JS.Int 1; to := JS.Int 2 |})
                     ngAfterViewInit)).
    right. eexists. vm_compute. reflexivity.
Defined.

(** ** Edits and their inverses *)

Section positions.
Context {A : Type}.
Implicit Types (l : list A) (x : A) (i : nat).

Lemma insert_at_delete l i x :
  l !! i = Some x → Engine.insert_at i x (delete i l) = l.
Proof.
  intros Hi. pose proof (lookup_lt_Some _ _ _ Hi) as Hlt.
  unfold Engine.insert_at. rewrite delete_take_drop.
  rewrite take_app_length', drop_app_length' by (rewrite length_take; lia).
  by apply take_drop_middle.
Qed.

Lemma delete_insert_at l i x :
  i ≤ length l → delete i (Engine.insert_at i x l) = l.
Proof.
  intros Hi. unfold Engine.insert_at.
  replace i with (length (take i l)) at 1 by (rewrite length_take; lia).
  rewrite delete_middle. apply take_drop.
Qed.

Lemma insert_at_end l x : Engine.insert_at (length l) x l = l ++ [x].
Proof. unfold Engine.insert_at. by rewrite firstn_all, drop_all. Qed.

Lemma delete_end l x : delete (length l) (l ++ [x]) = l.
Proof. rewrite delete_middle. apply app_nil_r. Qed.

Lemma foldl_delete_shift (ps : list (nat * A)) x l :
  foldl (λ acc p, delete p.1 acc) (x :: l) (prod_map S id <$> ps)
  = x :: foldl (λ acc p, delete p.1 acc) l ps.
Proof.
  revert l. induction ps as [|[i y] ps IH]; intros l; simpl; [done|].
  apply IH.
Qed.

Lemma foldr_insert_shift (ps : list (nat * A)) x l :
  foldr (λ p acc, Engine.insert_at p.1 p.2 acc) (x :: l) (prod_map S id <$> ps)
  = x :: foldr (λ p acc, Engine.insert_at p.1 p.2 acc) l ps.
Proof.
  induction ps as [|[i y] ps IH]; [done|].
  rewrite fmap_cons. cbn [foldr]. rewrite IH. reflexivity.
Qed.

End positions.

Lemma graph_eta (g : Engine.GraphModel) :
  {| Engine.nodes := Engine.nodes g; Engine.links := Engine.links g |} = g.
Proof. by destruct g. Qed.

Lemma put_field_restore (f : string) (v : JS.value) (r : NodeData) :
  Engine.put_field f (fields r !! f) (Engine.put_field f (Some v) r) = r.
Proof.
  destruct r as [k m]. unfold Engine.put_field. simpl. f_equal.
  destruct (m !! f) as [w|] eqn:E.
  - rewrite insert_insert_eq. by apply insert_id.
  - rewrite delete_insert_eq. by apply delete_id.
Qed.

Lemma put_field_same (f : string) (r : NodeData) :
  Engine.put_field f (fields r !! f) r = r.
Proof.
  destruct r as [k m]. unfold Engine.put_field. simpl. f_equal.
  destruct (m !! f) as [w|] eqn:E; [by apply insert_id | by apply delete_id].
Qed.

(** The cascade removes exactly the links that reference the key ... *)
Lemma cascade_removes (k : JS.number) (ls : list LinkData) :
  foldl (λ acc p, delete p.1 acc) ls (Engine.cascade k ls)
  = filter (λ l, ¬ Engine.references k l) ls.
Proof.
  induction ls as [|l ls IH]; [done|]. cbn [Engine.cascade].
  rewrite foldl_app, foldl_delete_shift, IH.
  destruct (decide (Engine.references k l)) as [Hr|Hr]; cbn [foldl fst delete].
  - by rewrite filter_cons_False by auto.
  - by rewrite filter_cons_True.
Qed.

(** ... and undoing it puts every one of them back in its place. *)
Lemma cascade_restores (k : JS.number) (ls : list LinkData) :
  foldr (λ p acc, Engine.insert_at p.1 p.2 acc)
        (filter (λ l, ¬ Engine.references k l) ls) (Engine.cascade k ls)
  = ls.
Proof.
  induction ls as [|l ls IH]; [done|]. cbn [Engine.cascade].
  rewrite foldr_app.
  destruct (decide (Engine.references k l)) as [Hr|Hr].
  - rewrite filter_cons_False by auto.
    cbn [foldr fst snd]. unfold Engine.insert_at at 2.
    rewrite take_0, drop_0, app_nil_l.
    by rewrite foldr_insert_shift, IH.
  - rewrite filter_cons_True by done. cbn [foldr].
    by rewrite foldr_insert_shift, IH.
Qed.

Lemma redo_remove_links (ps : list (nat * LinkData)) (g : Engine.GraphModel) :
  Engine.redo_edits ((λ p, Engine.RemoveLink p.1 p.2) <$> ps) g
  = Engine.with_links (foldl (λ acc p, delete p.1 acc) (Engine.links g) ps) g.
Proof.
  unfold Engine.redo_edits. revert g.
  induction ps as [|p ps IH]; intros g.
  - unfold Engine.with_links. simpl. by rewrite graph_eta.
  - rewrite fmap_cons. cbn [foldl]. rewrite IH. reflexivity.
Qed.

Lemma undo_remove_links (ps : list (nat * LinkData)) (g : Engine.GraphModel) :
  Engine.undo_edits ((λ p, Engine.RemoveLink p.1 p.2) <$> ps) g
  = Engine.with_links
      (foldr (λ p acc, Engine.insert_at p.1 p.2 acc) (Engine.links g) ps) g.
Proof.
  unfold Engine.undo_edits.
  induction ps as [|p ps IH].
  - unfold Engine.with_links. simpl. by rewrite graph_eta.
  - rewrite fmap_cons. cbn [foldr]. rewrite IH. reflexivity.
Qed.

Lemma redo_edits_app es1 es2 g :
  Engine.redo_edits (es1 ++ es2) g = Engine.redo_edits es2 (Engine.redo_edits es1 g).
Proof. apply foldl_app. Qed.

Lemma undo_edits_app es1 es2 g :
  Engine.undo_edits (es1 ++ es2) g = Engine.undo_edits es1 (Engine.undo_edits es2 g).
Proof. apply foldr_app. Qed.

Lemma find_node_Some k ns i r :
  Engine.find_node k ns = Some (i, r) → ns !! i = Some r ∧ key r = k.
Proof. unfold Engine.find_node. rewrite list_find_Some. by intros (? & ? & _). Qed.

(** Every model operation is reverted by its edits' inverses, and replayed by
    its edits. *)
Lemma perform_undo_redo o g g' es :
  perform o g = Engine.Ok (g', es) →
  Engine.undo_edits es g' = g ∧ Engine.redo_edits es g = g'.
Proof.
  destruct g as [ns ls]. destruct o as [r|r|l|l|r f v]; simpl.
  - unfold Engine.addNodeData. case_bool_decide; [done|]. intros [= <- <-].
    unfold Engine.undo_edits, Engine.redo_edits, Engine.with_nodes. simpl.
    by rewrite delete_end, insert_at_end.
  - unfold Engine.removeNodeData. simpl.
    destruct (Engine.find_node (key r) ns) as [[i r0]|] eqn:E; [|done].
    apply find_node_Some in E as [Hi _]. intros [= <- <-].
    rewrite undo_edits_app, redo_edits_app. unfold Engine.cascade_edits.
    rewrite redo_remove_links. simpl.
    rewrite undo_remove_links. unfold Engine.with_nodes, Engine.with_links. simpl.
    rewrite cascade_removes, cascade_restores.
    by rewrite insert_at_delete.
  - unfold Engine.addLinkData. intros [= <- <-].
    unfold Engine.undo_edits, Engine.redo_edits, Engine.with_links. simpl.
    by rewrite delete_end, insert_at_end.
  - unfold Engine.removeLinkData. simpl.
    destruct (list_find _ ls) as [[i l0]|] eqn:E; [|done].
    apply list_find_Some in E as (Hi & _ & _). intros [= <- <-].
    unfold Engine.undo_edits, Engine.redo_edits, Engine.with_links. simpl.
    by rewrite insert_at_delete.
  - unfold Engine.setDataProperty. simpl.
    destruct (Engine.find_node (key r) ns) as [[i r0]|] eqn:E; [|done].
    apply find_node_Some in E as [Hi _].
    case_bool_decide; intros [= <- <-];
      unfold Engine.undo_edits, Engine.redo_edits, Engine.with_nodes; simpl.
    + pose proof (put_field_same f r0) as Hsame.
      assert (Hid : alter (Engine.put_field f (fields r0 !! f)) i ns = ns).
      { apply list_eq. intros j. destruct (decide (i = j)) as [<-|Hne].
        - rewrite list_lookup_alter_eq, Hi. simpl. by rewrite Hsame.
        - by rewrite list_lookup_alter_ne. }
      by rewrite Hid.
    + split; unfold Engine.with_nodes; simpl; f_equal.
      * apply list_eq. intros j. destruct (decide (i = j)) as [<-|Hne].
        -- rewrite list_lookup_alter_eq, list_lookup_insert_eq
             by eauto using lookup_lt_Some.
           simpl. by rewrite put_field_restore.
        -- by rewrite list_lookup_alter_ne, list_lookup_insert_ne.
      * apply list_eq. intros j. destruct (decide (i = j)) as [<-|Hne].
        -- rewrite list_lookup_alter_eq, list_lookup_insert_eq, Hi
             by eauto using lookup_lt_Some.
           done.
        -- by rewrite list_lookup_alter_ne, list_lookup_insert_ne.
Qed.

(** ** Calls on the model, seen from the page *)

Lemma graph_of_write m g h u :
  Go.graph_of (Go.write_graph m g h) (Go.with_undoManager u m) = g.
Proof.
  unfold Go.graph_of, Go.write_graph. simpl.
  rewrite !lookup_insert_eq. apply graph_eta.
Qed.

Lemma model_nodes_graph s : model_nodes s = Engine.nodes (graph s).
Proof. reflexivity. Qed.

Lemma model_links_graph s : model_links s = Engine.links (graph s).
Proof. reflexivity. Qed.

(** A call that the engine accepts: the model holds the new graph, the undo
    manager has seen the edits, and a selected part survives if its record
    does.  Nothing else on the page changes. *)
Lemma lift_model_call_Ok op s g es :
  op (graph s) = Engine.Ok (g, es) →
  ∃ s', lift (Go.model_call op) s = Engine.Ok s'
        ∧ graph s' = g
        ∧ undoManager s' = Engine.record_edits es (undoManager s)
        ∧ Go.selection (diagram s')
          = Go.retain_selection g (Go.selection (diagram s))
        ∧ Go.nodeTemplate (diagram s') = Go.nodeTemplate (diagram s)
        ∧ currentExample s' = currentExample s.
Proof.
  intros Hop. unfold lift, Go.model_call. unfold graph in Hop. rewrite Hop.
  eexists. split; [reflexivity|].
  unfold graph. simpl. rewrite graph_of_write. done.
Qed.

Lemma lift_model_call_Err op s e :
  op (graph s) = Engine.Err e → lift (Go.model_call op) s = Engine.Err e.
Proof.
  intros Hop. unfold lift, Go.model_call. unfold graph in Hop. by rewrite Hop.
Qed.

Lemma data_Some s k r :
  Go.data (heap s) (diagram s) k = Some r →
  ∃ i, Engine.find_node k (model_nodes s) = Some (i, r)
       ∧ model_nodes s !! i = Some r ∧ key r = k.
Proof.
  change (Go.data (heap s) (diagram s) k)
    with (snd <$> Engine.find_node k (model_nodes s)).
  destruct (Engine.find_node k (model_nodes s)) as [[i r0]|] eqn:E; [|done].
  simpl. intros [= ->]. exists i. split; [done|]. by apply find_node_Some.
Qed.

Lemma data_live s k r :
  Go.data (heap s) (diagram s) k = Some r →
  Go.part_live (graph s) (Go.NodePart k) = true.
Proof.
  intros (i & _ & Hi & Hk)%data_Some. apply bool_decide_eq_true.
  unfold Engine.keys. rewrite <- Hk.
  apply list_elem_of_fmap_2. by eapply list_elem_of_lookup_2.
Qed.

Lemma NoDup_delete_lookup {A} (l : list A) i x :
  NoDup l → l !! i = Some x → x ∉ delete i l.
Proof.
  intros Hnd Hi. rewrite delete_take_drop.
  rewrite <- (take_drop_middle l i x Hi) in Hnd.
  apply NoDup_app in Hnd as (_ & Hdisj & Hnd).
  apply NoDup_cons in Hnd as [Hx _].
  rewrite elem_of_app. intros [Hin | Hin]; [|done].
  apply (Hdisj x Hin). apply list_elem_of_here.
Qed.

(** ** Removing the selected node *)

Lemma removeSelectedNode_selected s k r :
  Go.selection (diagram s) = Some (Go.NodePart k) →
  Go.data (heap s) (diagram s) k = Some r →
  ∃ s' i,
    removeSelectedNode s = Engine.Ok s'
    ∧ model_nodes s !! i = Some r
    ∧ graph s'
      = {| Engine.nodes := delete i (model_nodes s);
           Engine.links := filter (λ l, ¬ Engine.references k l) (model_links s) |}.
Proof.
  intros Hsel Hdata. unfold removeSelectedNode, Go.selection_first.
  rewrite Hsel, Hdata.
  destruct (data_Some _ _ _ Hdata) as (i & Hfind & Hi & Hk).
  destruct (lift_model_call_Ok (Engine.removeNodeData r) s
              {| Engine.nodes := delete i (model_nodes s);
                 Engine.links := filter (λ l, ¬ Engine.references k l)
                                        (model_links s) |}
              (Engine.cascade_edits k (model_links s) ++ [Engine.RemoveNode i r]))
    as (s' & Hs' & Hg & _).
  { unfold Engine.removeNodeData. rewrite Hk.
    change (Engine.nodes (graph s)) with (model_nodes s). by rewrite Hfind. }
  by exists s', i.
Qed.

(** C2: when the selected part is the node with key [k] (record [r]),
    [removeSelectedNode()] succeeds, removes that record from the model's
    nodes and leaves the other node records in place, and removes exactly the
    links whose [from] or [to] is [k]: a link is in the model afterwards if and
    only if it was there before and neither end is [k]. *)
Theorem removeSelectedNode_cascades (s : State) (k : JS.number) (r : NodeData) :
  Go.selection (diagram s) = Some (Go.NodePart k) →
  Go.data (heap s) (diagram s) k = Some r →
  ∃ s' i,
    removeSelectedNode s = Engine.Ok s'
    ∧ model_nodes s !! i = Some r
    ∧ model_nodes s' = delete i (model_nodes s)
    ∧ (NoDup (Engine.keys (model_nodes s)) → k ∉ Engine.keys (model_nodes s'))
    ∧ model_links s' = filter (λ l, ¬ Engine.references k l) (model_links s)
    ∧ (∀ l, l ∈ model_links s' ↔ l ∈ model_links s ∧ from l ≠ k ∧ to l ≠ k).
Proof.
  intros Hsel Hdata.
  destruct (removeSelectedNode_selected s k r Hsel Hdata) as (s' & i & Hrm & Hi & Hg).
  destruct (data_Some _ _ _ Hdata) as (_ & _ & _ & Hk).
  exists s', i. rewrite (model_nodes_graph s'), (model_links_graph s'), Hg.
  cbn [Engine.nodes Engine.links].
  split_and!; try done.
  - intros Hnd. unfold Engine.keys. rewrite list_fmap_delete.
    apply NoDup_delete_lookup; [done|].
    rewrite list_lookup_fmap. by rewrite Hi, <- Hk.
  - intros l. rewrite list_elem_of_filter. unfold Engine.references.
    split; [intros [Hn Hl] | intros (Hl & Hf & Ht)].
    + split_and!; [done|intros ?; apply Hn; by left|intros ?; apply Hn; by right].
    + split; [|done]. by intros [?|?].
Qed.

Lemma removeSelectedNode_cascades_witness :
  ∃ s', removeSelectedNode (select (Go.NodePart (JS.Int 1)) ngAfterViewInit)
        = Engine.Ok s'
        ∧ Engine.keys (model_nodes s') = [JS.Int 2; JS.Int 3]
        ∧ model_links s' = [].
Proof.
  destruct (removeSelectedNode_cascades
              (select (Go.NodePart (JS.Int 1)) ngAfterViewInit) (JS.Int 1)
              (mkNode (JS.Int 1) "Alice" "active" "manager"))
    as (s' & i & Hrm & Hi & Hn & _ & Hl & _).
  - vm_compute. reflexivity.
  - vm_compute. reflexivity.
  - exists s'. split; [exact Hrm|].
    destruct i as [|i].
    + rewrite Hn, Hl. split; vm_compute; reflexivity.
    + exfalso. revert Hi. destruct i as [|[|i]]; vm_compute; discriminate.
Defined.

(** ** Toggling the status of the selected node *)

(** The value [toggleStatus()] writes: ['inactive'] for ['active'], and
    ['active'] for anything else. *)
Lemma toggled_differs (v : JS.value) :
  v ≠ (if JS.strict_eq v (JS.VString "active")
       then JS.VString "inactive" else JS.VString "active").
Proof.
  unfold JS.strict_eq. case_bool_decide as Hv; [by subst v|].
  intros Heq. by apply Hv.
Qed.

Lemma status_put_field v r :
  status (Engine.put_field "status" (Some v) r) = v.
Proof. unfold status, get_field. simpl. by rewrite lookup_insert_eq. Qed.

Lemma find_node_insert k ns i r r' :
  Engine.find_node k ns = Some (i, r) → key r' = k →
  Engine.find_node k (<[i := r']> ns) = Some (i, r').
Proof.
  unfold Engine.find_node. intros (Hi & Hk & Hleast)%list_find_Some Hk'.
  apply list_find_insert_Some. right; left.
  split_and!; eauto using lookup_lt_Some.
Qed.

Lemma toggleStatus_selected s k r :
  Go.selection (diagram s) = Some (Go.NodePart k) →
  Go.data (heap s) (diagram s) k = Some r →
  ∃ s' i r',
    toggleStatus s = Engine.Ok s'
    ∧ r' = Engine.put_field "status"
             (Some (if JS.strict_eq (status r) (JS.VString "active")
                    then JS.VString "inactive" else JS.VString "active")) r
    ∧ model_nodes s !! i = Some r
    ∧ graph s' = Engine.with_nodes (<[i := r']> (model_nodes s)) (graph s)
    ∧ undoManager s'
      = Engine.record_edits
          [Engine.SetProperty i "status" (fields r !! "status")
                              (fields r' !! "status")]
          (undoManager s)
    ∧ Go.selection (diagram s') = Some (Go.NodePart k)
    ∧ Go.data (heap s') (diagram s') k = Some r'.
Proof.
  intros Hsel Hdata. unfold toggleStatus, Go.selection_first.
  rewrite Hsel, Hdata.
  destruct (data_Some _ _ _ Hdata) as (i & Hfind & Hi & Hk).
  set (v := if JS.strict_eq (status r) (JS.VString "active")
            then JS.VString "inactive" else JS.VString "active").
  set (r' := Engine.put_field "status" (Some v) r).
  destruct (lift_model_call_Ok (Engine.setDataProperty r "status" v) s
              (Engine.with_nodes (<[i := r']> (model_nodes s)) (graph s))
              [Engine.SetProperty i "status" (fields r !! "status") (Some v)])
    as (s' & Hs' & Hg & Hu & Hsel' & _).
  { unfold Engine.setDataProperty. rewrite Hk.
    change (Engine.nodes (graph s)) with (model_nodes s). rewrite Hfind.
    rewrite bool_decide_eq_false_2; [done|]. apply toggled_differs. }
  assert (Hdata' : Go.data (heap s') (diagram s') k = Some r').
  { change (Go.data (heap s') (diagram s') k)
      with (snd <$> Engine.find_node k (Engine.nodes (graph s'))).
    rewrite Hg. simpl. by rewrite (find_node_insert k _ i r r'). }
  exists s', i, r'. split_and!; try done.
  - rewrite Hu. subst r'. simpl. by rewrite lookup_insert_eq.
  - rewrite Hsel', Hsel. simpl. apply data_live in Hdata'.
    cbn [Go.part_live] in Hdata'. rewrite Hg in Hdata'. simpl in Hdata'.
    by rewrite Hdata'.
Qed.

Lemma node_status_data s k r :
  Go.data (heap s) (diagram s) k = Some r → node_status s k = Some (status r).
Proof. unfold node_status. by intros ->. Qed.

(** C10: for the selected node, a status that is anything other than
    ['active'] (['inactive'], [undefined], or any other value) is set to
    ['active'] by [toggleStatus()], and a second call then sets it to
    ['inactive']: two calls take [undefined] to ['inactive'], not back to
    [undefined].  Two calls give the status back exactly when it is ['active']
    or ['inactive']. *)
Theorem toggleStatus_not_active (s : State) (k : JS.number) (r : NodeData) :
  Go.selection (diagram s) = Some (Go.NodePart k) →
  Go.data (heap s) (diagram s) k = Some r →
  ∃ s1 s2,
    toggleStatus s = Engine.Ok s1 ∧ toggleStatus s1 = Engine.Ok s2
    ∧ (status r ≠ JS.VString "active" →
       node_status s1 k = Some (JS.VString "active")
       ∧ node_status s2 k = Some (JS.VString "inactive"))
    ∧ (status r = JS.VUndefined → node_status s2 k ≠ Some JS.VUndefined)
    ∧ (node_status s2 k = Some (status r)
       ↔ status r = JS.VString "active" ∨ status r = JS.VString "inactive").
Proof.
  intros Hsel Hdata.
  destruct (toggleStatus_selected s k r Hsel Hdata)
    as (s1 & i & r1 & Ht1 & Hr1 & _ & _ & _ & Hsel1 & Hdata1).
  destruct (toggleStatus_selected s1 k r1 Hsel1 Hdata1)
    as (s2 & j & r2 & Ht2 & Hr2 & _ & _ & _ & _ & Hdata2).
  apply node_status_data in Hdata1, Hdata2.
  rewrite Hr1, status_put_field in Hdata1.
  rewrite Hr2, status_put_field, Hr1, status_put_field in Hdata2.
  exists s1, s2. rewrite Hdata1, Hdata2. unfold JS.strict_eq.
  split; [done|]. split; [done|]. split; [|split].
  - intros Hna. by rewrite bool_decide_eq_false_2.
  - by intros ->.
  - destruct (decide (status r = JS.VString "active")) as [Ha | Hna].
    + rewrite Ha. rewrite (bool_decide_eq_true_2 (_ = _) eq_refl).
      rewrite bool_decide_eq_false_2 by done.
      split; [by left | done].
    + rewrite (bool_decide_eq_false_2 _ Hna).
      rewrite (bool_decide_eq_true_2 (_ = _) eq_refl).
      split; [intros [= <-]; by right | by intros [? | <-]].
Qed.

Lemma toggleStatus_not_active_witness :
  let s := select (Go.NodePart (JS.Int 3)) ngAfterViewInit in
  let u := select (Go.NodePart (JS.Int 7))
                  (page_with [ {| key := JS.Int 7; fields := ∅ |} ] []) in
  (∃ s1 s2, toggleStatus s = Engine.Ok s1 ∧ toggleStatus s1 = Engine.Ok s2
            ∧ node_status s1 (JS.Int 3) = Some (JS.VString "active")
            ∧ node_status s2 (JS.Int 3) = Some (JS.VString "inactive"))
  ∧ (∃ u1 u2, toggleStatus u = Engine.Ok u1 ∧ toggleStatus u1 = Engine.Ok u2
              ∧ node_status u1 (JS.Int 7) = Some (JS.VString "active")
              ∧ node_status u2 (JS.Int 7) = Some (JS.VString "inactive")).
Proof.
  split.
  - destruct (toggleStatus_not_active
                (select (Go.NodePart (JS.Int 3)) ngAfterViewInit) (JS.Int 3)
                (mkNode (JS.Int 3) "Charlie" "inactive" "employee"))
      as (s1 & s2 & H1 & H2 & Hna & _).
    + vm_compute. reflexivity.
    + vm_compute. reflexivity.
    + exists s1, s2. split_and!; [done..| |]; apply Hna; vm_compute; discriminate.
  - destruct (toggleStatus_not_active
                (select (Go.NodePart (JS.Int 7))
                        (page_with [ {| key := JS.Int 7; fields := ∅ |} ] []))
                (JS.Int 7) {| key := JS.Int 7; fields := ∅ |})
      as (u1 & u2 & H1 & H2 & Hna & _).
    + vm_compute. reflexivity.
    + vm_compute. reflexivity.
    + exists u1, u2. split_and!; [done..| |]; apply Hna; vm_compute; discriminate.
Defined.

(** ** Transactions, undo and redo *)

Lemma graph_with_undoManager h m u :
  Go.graph_of h (Go.with_undoManager u m) = Go.graph_of h m.
Proof. reflexivity. Qed.

Lemma startTransaction_recording s :
  Engine.state (undoManager s) = Engine.Idle →
  ∃ s1, startTransaction s = Engine.Ok s1
        ∧ recording (graph s) s1
        ∧ graph s1 = graph s
        ∧ Go.selection (diagram s1)
          = Go.retain_selection (graph s) (Go.selection (diagram s)).
Proof.
  intros Hidle. unfold startTransaction, lift, Go.um_call, Engine.startTransaction.
  unfold undoManager in Hidle. rewrite Hidle.
  eexists. split; [reflexivity|]. split_and!; try reflexivity.
  exists []. by split_and!.
Qed.

(** A call inside a transaction keeps it recording: an accepted operation
    appends its edits, a refused one changes nothing. *)
Lemma call_recording g0 o s : recording g0 s → recording g0 (call o s).
Proof.
  intros (buf & Hst & Hundo & Hredo). unfold call.
  destruct (perform o (graph s)) as [[g es]|e] eqn:Hop.
  - destruct (lift_model_call_Ok _ _ _ _ Hop) as (s' & -> & Hg & Hu & _).
    simpl. apply perform_undo_redo in Hop as [Hun Hre].
    exists (buf ++ es). split_and!.
    + rewrite Hu. unfold Engine.record_edits. by rewrite Hst.
    + by rewrite undo_edits_app, Hg, Hun.
    + by rewrite redo_edits_app, Hredo, Hg.
  - rewrite (lift_model_call_Err _ _ _ Hop). simpl. by exists buf.
Qed.

Lemma calls_recording g0 os s : recording g0 s → recording g0 (calls os s).
Proof.
  revert s. induction os as [|o os IH]; intros s Hs; simpl; [done|].
  apply IH. by apply call_recording.
Qed.

(** Committing what was recorded, then undoing and redoing it. *)
Lemma recording_commit_undo_redo g0 s :
  recording g0 s →
  ∃ s3 s4 s5,
    commitTransaction s = Engine.Ok s3 ∧ graph s3 = graph s
    ∧ undo s3 = Engine.Ok s4 ∧ graph s4 = g0
    ∧ redo s4 = Engine.Ok s5 ∧ graph s5 = graph s.
Proof.
  intros (buf & Hst & Hundo & Hredo).
  unfold commitTransaction, undo, redo, lift, Go.um_call, Go.history_call,
    Engine.commitTransaction.
  unfold undoManager in Hst. rewrite Hst.
  eexists. eexists. eexists.
  split; [reflexivity|]. split; [reflexivity|]. simpl.
  split; [reflexivity|]. split.
  { unfold graph. simpl. rewrite graph_of_write. exact Hundo. }
  simpl. split; [reflexivity|].
  unfold graph. simpl. rewrite !graph_of_write. fold (graph s).
  rewrite <- Hredo, <- Hundo. reflexivity.
Qed.

(** C7: a transaction is opened, any sequence of model edits is made (those
    the engine refuses change nothing), and the transaction is committed;
    [undo()] then restores the node and link records the model had before
    the transaction, and [redo()] after that restores the records it had when
    the transaction was committed. *)
Theorem undo_redo_committed_transaction (s : State) (os : list operation) :
  Engine.state (undoManager s) = Engine.Idle →
  ∃ s1 s3 s4 s5,
    startTransaction s = Engine.Ok s1
    ∧ commitTransaction (calls os s1) = Engine.Ok s3
    ∧ undo s3 = Engine.Ok s4
    ∧ model_nodes s4 = model_nodes s ∧ model_links s4 = model_links s
    ∧ redo s4 = Engine.Ok s5
    ∧ model_nodes s5 = model_nodes s3 ∧ model_links s5 = model_links s3
    ∧ model_nodes s3 = model_nodes (calls os s1)
    ∧ model_links s3 = model_links (calls os s1).
Proof.
  intros Hidle.
  destruct (startTransaction_recording s Hidle) as (s1 & Hstart & Hrec & _).
  apply (calls_recording _ os) in Hrec.
  destruct (recording_commit_undo_redo _ _ Hrec)
    as (s3 & s4 & s5 & Hc & Hg3 & Hu & Hg4 & Hr & Hg5).
  exists s1, s3, s4, s5.
  rewrite !model_nodes_graph, !model_links_graph, Hg3, Hg4, Hg5.
  by split_and!.
Qed.

Lemma undo_redo_committed_transaction_witness :
  ∃ s1 s3 s4 s5,
    startTransaction ngAfterViewInit = Engine.Ok s1
    ∧ commitTransaction
        (calls [ OpRemoveNode (mkNode (JS.Int 1) "Alice" "active" "manager");
                 OpAddNode (mkNode (JS.Int 9) "Dana" "active" "employee") ] s1)
      = Engine.Ok s3
    ∧ undo s3 = Engine.Ok s4
    ∧ model_nodes s4 = nodeDataArray0 ∧ model_links s4 = linkDataArray0
    ∧ redo s4 = Engine.Ok s5
    ∧ Engine.keys (model_nodes s5) = [JS.Int 2; JS.Int 3; JS.Int 9]
    ∧ model_links s5 = [].
Proof.
  destruct (undo_redo_committed_transaction ngAfterViewInit
              [ OpRemoveNode (mkNode (JS.Int 1) "Alice" "active" "manager");
                OpAddNode (mkNode (JS.Int 9) "Dana" "active" "employee") ])
    as (s1 & s3 & s4 & s5 & H1 & H3 & H4 & Hn4 & Hl4 & H5 & Hn5 & Hl5 & Hn3 & Hl3).
  - vm_compute. reflexivity.
  - exists s1, s3, s4, s5. rewrite Hn4, Hl4, Hn5, Hl5, Hn3, Hl3.
    split_and!; try done.
    + injection H1 as <-. vm_compute. reflexivity.
    + injection H1 as <-. vm_compute. reflexivity.
Defined.

Lemma data_graph s s' k :
  graph s' = graph s →
  Go.data (heap s') (diagram s') k = Go.data (heap s) (diagram s) k.
Proof.
  intros Hg.
  change (snd <$> Engine.find_node k (Engine.nodes (graph s'))
          = snd <$> Engine.find_node k (Engine.nodes (graph s))).
  by rewrite Hg.
Qed.

Lemma toggleStatus_as_call s k r :
  Go.selection (diagram s) = Some (Go.NodePart k) →
  Go.data (heap s) (diagram s) k = Some r →
  toggleStatus s
  = lift (Go.model_call
            (perform (OpSetProperty r "status"
                        (if JS.strict_eq (status r) (JS.VString "active")
                         then JS.VString "inactive" else JS.VString "active"))))
         s.
Proof.
  intros Hsel Hdata. unfold toggleStatus, Go.selection_first.
  by rewrite Hsel, Hdata.
Qed.

Lemma record_edits_idle es u :
  Engine.state u = Engine.Idle → Engine.record_edits es u = u.
Proof. unfold Engine.record_edits. by intros ->. Qed.

(** C3: an [undo()] after [toggleStatus()] does not restore the status.  On
    the example data, with node 1 selected and ['active'], [toggleStatus()]
    sets the status to ['inactive'] without opening or committing a
    transaction; the undo stack is still empty, so the [undo()] that follows
    signals that there is nothing to undo and the status stays
    ['inactive']. *)
Theorem toggleStatus_then_undo_not_restored :
  let s := select (Go.NodePart (JS.Int 1)) ngAfterViewInit in
  Go.selection (diagram s) = Some (Go.NodePart (JS.Int 1))
  ∧ node_status s (JS.Int 1) = Some (JS.VString "active")
  ∧ (∃ s1, toggleStatus s = Engine.Ok s1
           ∧ node_status s1 (JS.Int 1) = Some (JS.VString "inactive")
           ∧ Engine.undoStack (undoManager s1) = []
           ∧ undo s1 = Engine.Err Engine.NothingToUndo
           ∧ node_status (after (undo s1) s1) (JS.Int 1)
             = Some (JS.VString "inactive"))
  ∧ ¬ toggle_then_undo_restores s (JS.Int 1).
Proof.
  split_and!; [vm_compute; reflexivity..| |].
  - eexists. split; [vm_compute; reflexivity|].
    split_and!; vm_compute; reflexivity.
  - intros (s1 & s2 & Htoggle & _ & Hundo & _).
    vm_compute in Htoggle. injection Htoggle as <-.
    vm_compute in Hundo. discriminate Hundo.
Qed.

(** What the toggle would need to be undoable: for a selected node whose
    status is ['active'], [toggleStatus()] sets the status to ['inactive'];
    made while the undo manager is idle it leaves the undo manager as it
    was, and made between [startTransaction()] and [commitTransaction()] it
    is reverted by the following [undo()], which restores ['active'] and the
    whole model. *)
Theorem toggleStatus_active_undo_in_transaction
    (s : State) (k : JS.number) (r : NodeData) :
  Go.selection (diagram s) = Some (Go.NodePart k) →
  Go.data (heap s) (diagram s) k = Some r →
  status r = JS.VString "active" →
  (∃ s1, toggleStatus s = Engine.Ok s1
         ∧ node_status s1 k = Some (JS.VString "inactive")
         ∧ (Engine.state (undoManager s) = Engine.Idle →
            undoManager s1 = undoManager s))
  ∧ (Engine.state (undoManager s) = Engine.Idle →
     ∃ sa s1 sb s2,
       startTransaction s = Engine.Ok sa
       ∧ toggleStatus sa = Engine.Ok s1
       ∧ node_status s1 k = Some (JS.VString "inactive")
       ∧ commitTransaction s1 = Engine.Ok sb
       ∧ undo sb = Engine.Ok s2
       ∧ node_status s2 k = Some (JS.VString "active")
       ∧ model_nodes s2 = model_nodes s ∧ model_links s2 = model_links s).
Proof.
  intros Hsel Hdata Hactive. split.
  - destruct (toggleStatus_selected s k r Hsel Hdata)
      as (s1 & i & r1 & Ht & Hr1 & _ & _ & Hu & _ & Hdata1).
    exists s1. split_and!; [done| |].
    + rewrite (node_status_data _ _ _ Hdata1), Hr1, status_put_field, Hactive.
      reflexivity.
    + intros Hidle. rewrite Hu. by apply record_edits_idle.
  - intros Hidle.
    destruct (startTransaction_recording s Hidle)
      as (sa & Hstart & Hrec & Hga & Hsela).
    assert (Hdataa : Go.data (heap sa) (diagram sa) k = Some r)
      by (by rewrite (data_graph s sa k Hga)).
    rewrite Hsel in Hsela. unfold Go.retain_selection in Hsela.
    rewrite (data_live _ _ _ Hdata) in Hsela.
    destruct (toggleStatus_selected sa k r Hsela Hdataa)
      as (s1 & i & r1 & Ht & Hr1 & _ & _ & _ & _ & Hdata1).
    assert (Hrec1 : recording (graph s) s1).
    { pose proof (call_recording _
        (OpSetProperty r "status"
           (if JS.strict_eq (status r) (JS.VString "active")
            then JS.VString "inactive" else JS.VString "active")) _ Hrec) as Hc.
      unfold call in Hc.
      by rewrite <- (toggleStatus_as_call sa k r Hsela Hdataa), Ht in Hc. }
    destruct (recording_commit_undo_redo _ _ Hrec1)
      as (sb & s2 & _ & Hc & _ & Hu & Hg2 & _).
    exists sa, s1, sb, s2. split_and!; try done.
    + rewrite (node_status_data _ _ _ Hdata1), Hr1, status_put_field, Hactive.
      reflexivity.
    + unfold node_status. rewrite (data_graph s s2 k Hg2), Hdata. simpl.
      by rewrite Hactive.
    + by rewrite !model_nodes_graph, Hg2.
    + by rewrite !model_links_graph, Hg2.
Qed.

Lemma toggleStatus_active_undo_in_transaction_witness :
  let s := select (Go.NodePart (JS.Int 1)) ngAfterViewInit in
  (∃ s1, toggleStatus s = Engine.Ok s1
         ∧ node_status s1 (JS.Int 1) = Some (JS.VString "inactive")
         ∧ undoManager s1 = undoManager s)
  ∧ (∃ sa s1 sb s2,
       startTransaction s = Engine.Ok sa
       ∧ toggleStatus sa = Engine.Ok s1
       ∧ commitTransaction s1 = Engine.Ok sb
       ∧ undo sb = Engine.Ok s2
       ∧ node_status s2 (JS.Int 1) = Some (JS.VString "active")).
Proof.
  destruct (toggleStatus_active_undo_in_transaction
              (select (Go.NodePart (JS.Int 1)) ngAfterViewInit) (JS.Int 1)
              (mkNode (JS.Int 1) "Alice" "active" "manager"))
    as [(s1 & Ht & Hs & Hu) Htx].
  - vm_compute. reflexivity.
  - vm_compute. reflexivity.
  - vm_compute. reflexivity.
  - split.
    + exists s1. split_and!; [done..|]. apply Hu. vm_compute. reflexivity.
    + destruct Htx as (sa & s1' & sb & s2 & ? & ? & _ & ? & ? & ? & _);
        [vm_compute; reflexivity|].
      by exists sa, s1', sb, s2.
Defined.

(** ** Node keys *)

Lemma round_to_double_exact (z : Z) :
  (Z.abs z ≤ 2 ^ 53)%Z → JS.round_to_double z = z.
Proof.
  intros Hz. unfold JS.round_to_double.
  destruct (Z.ltb_spec (Z.abs z) (2 ^ 53)) as [Hlt | Hge]; [done|].
  change (2 ^ 53)%Z with 9007199254740992%Z in Hz, Hge.
  assert (Hcase : z = 9007199254740992%Z ∨ z = (-9007199254740992)%Z) by lia.
  by destruct Hcase as [-> | ->].
Qed.

(** [Math.max] of a non-empty list of integers is its greatest element. *)
Lemma Math_max_Int (ks : list JS.number) :
  ks ≠ [] → Forall (λ k, k ≠ JS.NegInfinity) ks →
  ∃ m, JS.Math_max ks = JS.Int m ∧ JS.Int m ∈ ks
       ∧ ∀ z, JS.Int z ∈ ks → (z ≤ m)%Z.
Proof.
  induction ks as [|k ks IH]; [done|]. intros _ Hall.
  apply Forall_cons in Hall as [Hk Hall].
  destruct k as [|z]; [done|]. unfold JS.Math_max. simpl.
  destruct ks as [|k' ks'].
  - exists z. split_and!; [done|apply list_elem_of_here|].
    intros z' Hin. apply list_elem_of_singleton in Hin. injection Hin as ->. lia.
  - destruct (IH ltac:(done) Hall) as (m & Hm & Hin & Hmax).
    unfold JS.Math_max in Hm. rewrite Hm. simpl.
    exists (Z.max z m). split_and!; [done| |].
    + destruct (Z.max_spec z m) as [[_ ->] | [_ ->]];
        [by apply list_elem_of_further | apply list_elem_of_here].
    + intros z' Hz'. apply elem_of_cons in Hz' as [Hz' | Hz'].
      * injection Hz' as ->. lia.
      * apply Hmax in Hz'. lia.
Qed.

(** While the array is not empty and holds integer keys in the range where
    [+ 1] is exact, the key [addNode()] computes is new. *)
Lemma newKey_fresh (s : State) :
  this_nodes s ≠ [] →
  Forall (λ k, ∃ z, k = JS.Int z ∧ (Z.abs z < 2 ^ 53)%Z) (key <$> this_nodes s) →
  newKey s ∉ key <$> this_nodes s.
Proof.
  intros Hne Hall. unfold newKey.
  destruct (Math_max_Int (key <$> this_nodes s)) as (m & -> & Hin & Hmax).
  - by destruct (this_nodes s).
  - eapply Forall_impl; [exact Hall|]. by intros k (z & -> & _).
  - rewrite Forall_forall in Hall.
    destruct (Hall _ Hin) as (z & [= <-] & Hz). simpl.
    rewrite round_to_double_exact by lia.
    intros Hin'. apply Hmax in Hin'. lia.
Qed.

(** Beyond that range the sum rounds back to the key itself. *)
Lemma newKey_rounds_at_2_53 :
  let s := page_with [ {| key := JS.Int (2 ^ 53); fields := ∅ |} ] [] in
  newKey s = JS.Int (2 ^ 53) ∧ newKey s ∈ key <$> this_nodes s.
Proof. split; vm_compute; [reflexivity | apply list_elem_of_here]. Qed.

(** The engine keeps node keys distinct, whatever it is asked to do. *)
Lemma perform_keys_NoDup o g g' es :
  perform o g = Engine.Ok (g', es) →
  NoDup (Engine.keys (Engine.nodes g)) → NoDup (Engine.keys (Engine.nodes g')).
Proof.
  destruct o as [r|r|l|l|r f v]; simpl.
  - unfold Engine.addNodeData. case_bool_decide as Hin; [done|].
    intros [= <- _] Hnd. simpl. unfold Engine.keys in *. rewrite fmap_app.
    apply NoDup_app. split_and!; [done| |apply NoDup_singleton].
    intros x Hx ->%list_elem_of_singleton. done.
  - unfold Engine.removeNodeData.
    destruct (Engine.find_node _ _) as [[i r0]|]; [|done].
    intros [= <- _] Hnd. simpl. unfold Engine.keys in *.
    rewrite list_fmap_delete.
    exact (sublist_NoDup _ _ Hnd (sublist_delete _ i)).
  - unfold Engine.addLinkData. by intros [= <- _].
  - unfold Engine.removeLinkData. destruct (list_find _ _) as [[i l0]|]; [|done].
    by intros [= <- _].
  - unfold Engine.setDataProperty.
    destruct (Engine.find_node _ _) as [[i r0]|] eqn:E; [|done].
    apply find_node_Some in E as [Hi _].
    case_bool_decide; intros [= <- _] Hnd; [done|]. simpl.
    unfold Engine.keys in *. rewrite list_fmap_insert. simpl.
    rewrite list_insert_id; [done|]. by rewrite list_lookup_fmap, Hi.
Qed.

Lemma lift_perform_keys_NoDup o s :
  NoDup (Engine.keys (model_nodes s)) →
  NoDup (Engine.keys (model_nodes (after (lift (Go.model_call (perform o)) s) s))).
Proof.
  intros Hnd. destruct (perform o (graph s)) as [[g es]|e] eqn:Hop.
  - destruct (lift_model_call_Ok _ _ _ _ Hop) as (s' & -> & Hg & _). simpl.
    rewrite model_nodes_graph, Hg. by eapply perform_keys_NoDup.
  - by rewrite (lift_model_call_Err _ _ _ Hop).
Qed.

Lemma step_keys_NoDup a s :
  aliased s →
  NoDup (Engine.keys (model_nodes s)) →
  NoDup (Engine.keys (model_nodes (step a s))).
Proof.
  intros [Hn Hl] Hnd. destruct a as [p| | | |id]; simpl.
  - unfold select, Go.select. by case_match.
  - apply (lift_perform_keys_NoDup (OpAddNode _) s Hnd).
  - unfold removeSelectedNode.
    destruct (Go.selection_first (diagram s)) as [[k|l]|]; try done.
    destruct (Go.data _ _ k) as [r|]; [|done].
    apply (lift_perform_keys_NoDup (OpRemoveNode r) s Hnd).
  - unfold toggleStatus.
    destruct (Go.selection_first (diagram s)) as [[k|l]|]; try done.
    destruct (Go.data _ _ k) as [r|]; [|done].
    apply (lift_perform_keys_NoDup (OpSetProperty r "status" _) s Hnd).
  - unfold selectExample, loadExample.
    repeat (case_decide;
            [unfold model_nodes, Go.graph_of in *; simpl; by rewrite <- Hn|]).
    done.
Qed.

(** No two live nodes share a key, after any sequence of page actions. *)
Lemma run_keys_NoDup (acts : list action) :
  NoDup (Engine.keys (model_nodes (run acts ngAfterViewInit))).
Proof.
  assert (H : ∀ s, aliased s → NoDup (Engine.keys (model_nodes s)) →
                   NoDup (Engine.keys (model_nodes (run acts s)))).
  { induction acts as [|a acts IH]; intros s Hal Hnd; simpl; [done|].
    apply IH; [by apply step_aliased | by apply step_keys_NoDup]. }
  apply H; [apply ngAfterViewInit_aliased|].
  vm_compute. repeat constructor; not_in_list.
Qed.

(** C1: the key [addNode()] assigns can equal the key of an existing node.
    Once the three example nodes have been removed the array is empty, so the
    first [addNode()] adds the key [-Infinity]; the next one computes
    [-Infinity + 1 = -Infinity] again, the key of that live node, and the
    model refuses the record as a duplicate. *)
Theorem addNode_key_collides_after_emptying :
  let s := run [ Pick (Go.NodePart (JS.Int 1)); RemoveSelectedNode;
                 Pick (Go.NodePart (JS.Int 2)); RemoveSelectedNode;
                 Pick (Go.NodePart (JS.Int 3)); RemoveSelectedNode;
                 AddNode ] ngAfterViewInit in
  Engine.keys (model_nodes s) = [JS.NegInfinity]
  ∧ newKey s = JS.NegInfinity
  ∧ newKey s ∈ Engine.keys (model_nodes s)
  ∧ addNode s = Engine.Err Engine.DuplicateKey.
Proof.
  split_and!; vm_compute; [reflexivity..|apply list_elem_of_here|reflexivity].
Qed.

(** ** Pages reachable from startup *)

Lemma retain_selection_live g sel p :
  Go.retain_selection g sel = Some p → Go.part_live g p = true.
Proof.
  unfold Go.retain_selection. destruct sel as [q|]; [|done].
  destruct (Go.part_live g q) eqn:E; [|done]. by intros [= <-].
Qed.

Lemma lift_model_call_live op s :
  selection_live s → selection_live (after (lift (Go.model_call op) s) s).
Proof.
  intros Hs. destruct (op (graph s)) as [[g es]|e] eqn:Hop.
  - destruct (lift_model_call_Ok _ _ _ _ Hop) as (s' & -> & Hg & _ & Hsel & _).
    simpl. intros p Hp. rewrite Hg. rewrite Hsel in Hp.
    by eapply retain_selection_live.
  - by rewrite (lift_model_call_Err _ _ _ Hop).
Qed.

Lemma step_selection_live a s :
  aliased s → selection_live s → selection_live (step a s).
Proof.
  intros [Hn Hl] Hs. destruct a as [p| | | |id]; simpl.
  - unfold select, Go.select.
    destruct (Go.part_live _ p) eqn:E; [|done].
    intros q [= <-]. exact E.
  - apply (lift_model_call_live _ s Hs).
  - unfold removeSelectedNode.
    destruct (Go.selection_first (diagram s)) as [[k|l]|]; try done.
    destruct (Go.data _ _ k) as [r|]; [|done].
    apply (lift_model_call_live _ s Hs).
  - unfold toggleStatus.
    destruct (Go.selection_first (diagram s)) as [[k|l]|]; try done.
    destruct (Go.data _ _ k) as [r|]; [|done].
    apply (lift_model_call_live _ s Hs).
  - unfold selectExample, loadExample.
    repeat (case_decide; [by intros q|]).
    exact Hs.
Qed.

Lemma run_selection_live (acts : list action) :
  selection_live (run acts ngAfterViewInit).
Proof.
  assert (H : ∀ s, aliased s → selection_live s → selection_live (run acts s)).
  { induction acts as [|a acts IH]; intros s Hal Hs; simpl; [done|].
    apply IH; [by apply step_aliased | by apply step_selection_live]. }
  apply H; [apply ngAfterViewInit_aliased | by intros p].
Qed.

(** On every page reachable from startup, a selected node has its record in
    the model: the hypothesis of the properties of [removeSelectedNode()] and
    [toggleStatus()] above. *)
Lemma run_selected_node_has_data (acts : list action) (k : JS.number) :
  let s := run acts ngAfterViewInit in
  Go.selection (diagram s) = Some (Go.NodePart k) →
  ∃ r, Go.data (heap s) (diagram s) k = Some r.
Proof.
  intros s Hsel. subst s.
  set (s := run acts ngAfterViewInit) in *.
  pose proof (run_selection_live acts _ Hsel) as Hlive. fold s in Hlive.
  apply bool_decide_eq_true in Hlive. unfold Engine.keys in Hlive.
  apply list_elem_of_fmap in Hlive as (r & Hk & Hin).
  destruct (list_find_elem_of (λ r, key r = k) _ r Hin (eq_sym Hk))
    as [[i r0] Hfind].
  exists r0.
  change (snd <$> list_find (λ r, key r = k) (Engine.nodes (graph s)) = Some r0).
  by rewrite Hfind.
Qed.

(** * Further properties of the component *)

(** ** The key computed by [addNode()] *)

Lemma max2_NegInfinity x y :
  JS.max2 x y = JS.NegInfinity ↔ x = JS.NegInfinity ∧ y = JS.NegInfinity.
Proof. destruct x, y; simpl; split; try done; by intros [? ?]. Qed.

Lemma Math_max_NegInfinity (ks : list JS.number) :
  JS.Math_max ks = JS.NegInfinity ↔ Forall (λ k, k = JS.NegInfinity) ks.
Proof.
  unfold JS.Math_max. induction ks as [|k ks IH]; simpl.
  - split; [constructor | done].
  - rewrite max2_NegInfinity, Forall_cons, IH. done.
Qed.

(** X1: the key [addNode()] computes is [-Infinity] exactly when every key
    in [this.nodeDataArray] is [-Infinity]; the empty array is the first
    case. *)
Theorem newKey_NegInfinity_iff (s : State) :
  newKey s = JS.NegInfinity
  ↔ Forall (λ r, key r = JS.NegInfinity) (this_nodes s).
Proof.
  unfold newKey.
  destruct (JS.Math_max (key <$> this_nodes s)) as [|m] eqn:E; simpl.
  - split; [intros _|done].
    apply Math_max_NegInfinity in E. by rewrite Forall_fmap in E.
  - split; [done|]. intros Hall.
    assert (JS.Math_max (key <$> this_nodes s) = JS.NegInfinity) as E'
      by (apply Math_max_NegInfinity; by rewrite Forall_fmap).
    congruence.
Qed.

(** X2: on a non-empty array of integer keys below [2^53] in magnitude, the
    key [addNode()] computes is the greatest key plus one, so it is greater
    than every key in the array. *)
Theorem newKey_is_max_plus_one (s : State) :
  this_nodes s ≠ [] →
  Forall (λ k, ∃ z, k = JS.Int z ∧ (Z.abs z < 2 ^ 53)%Z) (key <$> this_nodes s) →
  ∃ m, JS.Int m ∈ key <$> this_nodes s
       ∧ (∀ z, JS.Int z ∈ key <$> this_nodes s → (z < m + 1)%Z)
       ∧ newKey s = JS.Int (m + 1).
Proof.
  intros Hne Hall. unfold newKey.
  destruct (Math_max_Int (key <$> this_nodes s)) as (m & -> & Hin & Hmax).
  - by destruct (this_nodes s).
  - eapply Forall_impl; [exact Hall|]. by intros k (z & -> & _).
  - rewrite Forall_forall in Hall.
    destruct (Hall _ Hin) as (z & [= <-] & Hz).
    exists m. split_and!; [done| |].
    + intros z' Hz'. apply Hmax in Hz'. lia.
    + simpl. by rewrite round_to_double_exact by lia.
Qed.

Lemma newKey_is_max_plus_one_witness :
  newKey ngAfterViewInit = JS.Int 4.
Proof.
  assert (Hkeys : key <$> this_nodes ngAfterViewInit
                  = [JS.Int 1; JS.Int 2; JS.Int 3]) by (vm_compute; reflexivity).
  destruct (newKey_is_max_plus_one ngAfterViewInit) as (m & Hin & Hmax & ->).
  - intros Hnil. by rewrite Hnil in Hkeys.
  - rewrite Hkeys.
    repeat (apply Forall_cons; split; [eexists; split; [reflexivity|]; reflexivity|]).
    apply Forall_nil_2.
  - rewrite Hkeys in Hin, Hmax. f_equal.
    assert (Hle : (3 < m + 1)%Z) by (apply Hmax; in_list).
    repeat (apply elem_of_cons in Hin as [[= ->] | Hin]; [lia|]).
    by apply elem_of_nil in Hin.
Defined.

Lemma max2_swap x y m : JS.max2 x (JS.max2 y m) = JS.max2 y (JS.max2 x m).
Proof. destruct x, y, m; simpl; f_equal; lia. Qed.

Lemma Math_max_Permutation (ks ks' : list JS.number) :
  ks ≡ₚ ks' → JS.Math_max ks = JS.Math_max ks'.
Proof.
  unfold JS.Math_max. induction 1 as [|x l l' _ IH|x y l|l l' l'' _ IH1 _ IH2]; simpl.
  - done.
  - by rewrite IH.
  - apply max2_swap.
  - by rewrite IH1.
Qed.

(** X3: the key [addNode()] computes depends only on which keys are in the
    array, not on their order nor on the other fields of the records. *)
Theorem newKey_order_independent (s s' : State) :
  key <$> this_nodes s ≡ₚ key <$> this_nodes s' → newKey s = newKey s'.
Proof. intros Hp. unfold newKey. by rewrite (Math_max_Permutation _ _ Hp). Qed.

Lemma newKey_order_independent_witness :
  newKey (page_with [ mkNode (JS.Int 5) "a" "active" "manager";
                      mkNode (JS.Int 2) "b" "inactive" "employee" ] [])
  = newKey (page_with [ {| key := JS.Int 2; fields := ∅ |};
                        {| key := JS.Int 5; fields := ∅ |} ] []).
Proof.
  apply newKey_order_independent. vm_compute. apply perm_swap.
Defined.

(** ** What the conversion closures do on every input *)

(** X4: when the conversion closures throw.  On [undefined], [null] and
    every string no closure throws; the comparing closures ([===]) throw on
    no value at all; and the two closures that call [toUpperCase] throw a
    [TypeError] when the field holds a boolean or a number. *)
Theorem converter_throw_cases (c : Template.Converter) (v : JS.value) :
  (string_or_nullish v → ∃ r, Template.apply_converter c v = JS.Returns r)
  ∧ (¬ uses_toUpperCase c → ∃ r, Template.apply_converter c v = JS.Returns r)
  ∧ (uses_toUpperCase c → boolean_or_number v →
     Template.apply_converter c v = JS.Throws JS.TypeError).
Proof.
  unfold uses_toUpperCase, boolean_or_number, string_or_nullish. split_and!.
  - intros [-> | [-> | [s ->]]]; destruct c; simpl; eauto.
  - intros Hc.
    destruct c as [lit yes no|lit|fb|];
      [simpl; eauto | simpl; eauto
      | exfalso; apply Hc; right; by exists fb
      | exfalso; apply Hc; by left].
  - intros [-> | [fb ->]] [[b ->] | [n ->]]; reflexivity.
Qed.

Lemma converter_throw_cases_witness :
  (∃ r, Template.apply_converter (Template.UpperOr "N/A") (JS.VString "active")
        = JS.Returns r)
  ∧ (∃ r, Template.apply_converter (Template.IsEq "manager")
            (JS.VNumber (JS.Int 5)) = JS.Returns r)
  ∧ Template.apply_converter Template.Upper (JS.VNumber (JS.Int 5))
    = JS.Throws JS.TypeError.
Proof.
  split_and!.
  - apply (proj1 (converter_throw_cases (Template.UpperOr "N/A")
                    (JS.VString "active"))).
    right; right. by eexists.
  - apply (proj1 (proj2 (converter_throw_cases (Template.IsEq "manager")
                           (JS.VNumber (JS.Int 5))))).
    by intros [? | [fb ?]].
  - apply (proj2 (proj2 (converter_throw_cases Template.Upper
                           (JS.VNumber (JS.Int 5))))).
    + by left.
    + right. by eexists.
Defined.

(** X5: in the [composition] template the role badge and the background
    agree on every record: the badge is visible exactly when the background
    is the manager colour ['#FFF4E6'], and both hold exactly when the role is
    the string ['manager']. *)
Theorem composition_role_bindings_agree (r : NodeData) :
  Template.bind_conv "visible" "role" (Template.IsEq "manager")
    ∈ Template.all_bindings Template.composition
  ∧ Template.bind_conv "fill" "role" (Template.CondEq "manager" "#FFF4E6" "white")
      ∈ Template.all_bindings Template.composition
  ∧ (Template.apply_converter (Template.IsEq "manager") (get_field r "role")
       = JS.Returns (JS.VBoolean true)
     ↔ Template.apply_converter (Template.CondEq "manager" "#FFF4E6" "white")
         (get_field r "role") = JS.Returns (JS.VString "#FFF4E6"))
  ∧ (Template.apply_converter (Template.IsEq "manager") (get_field r "role")
       = JS.Returns (JS.VBoolean true)
     ↔ get_field r "role" = JS.VString "manager").
Proof.
  split_and!; [simpl; in_list..| |]; simpl; unfold JS.strict_eq;
    case_bool_decide; split; try done; congruence.
Qed.

Lemma upper_string_empty (s : string) : JS.upper_string s = "" ↔ s = "".
Proof. by destruct s. Qed.

(** X6: on a field that is [undefined], [null] or a string of ASCII
    characters, the closure [s => s?.toUpperCase() || fallback] with a
    non-empty fallback always returns a non-empty string: the fallback when
    the field is [undefined], [null] or the empty string, and the
    upper-cased field otherwise. *)
Theorem upper_or_fallback_never_blank (fb : string) (v : JS.value) :
  fb ≠ "" → ascii_or_nullish v →
  ∃ t, Template.apply_converter (Template.UpperOr fb) v = JS.Returns (JS.VString t)
       ∧ t ≠ ""
       ∧ (v = JS.VUndefined ∨ v = JS.VNull ∨ v = JS.VString "" → t = fb)
       ∧ (∀ s, v = JS.VString s → s ≠ "" → t = JS.upper_string s).
Proof.
  intros Hfb [-> | [-> | [s [-> _]]]].
  - exists fb. split_and!; try done.
  - exists fb. split_and!; try done.
  - destruct (decide (s = "")) as [-> | Hs].
    + exists fb. split_and!; try done. by intros s [= <-].
    + exists (JS.upper_string s). simpl. unfold JS.or_else. simpl.
      rewrite bool_decide_eq_false_2 by (by rewrite upper_string_empty).
      split_and!; try done.
      * by rewrite upper_string_empty.
      * intros [? | [? | [= ->]]]; done.
      * by intros s' [= <-].
Qed.

Lemma upper_or_fallback_never_blank_witness :
  ∃ t, Template.apply_converter (Template.UpperOr "N/A") (JS.VString "active")
       = JS.Returns (JS.VString t) ∧ t = "ACTIVE".
Proof.
  destruct (upper_or_fallback_never_blank "N/A" (JS.VString "active"))
    as (t & Ht & _ & _ & Hup).
  - discriminate.
  - right; right. exists "active". split; [reflexivity|].
    cbn [ascii_only]. repeat split; apply Nat.ltb_lt; reflexivity.
  - exists t. split; [exact Ht|]. by apply (Hup "active").
Defined.

(** X7: each of the eight node templates shows the node's name (it binds
    [text] to [name] without conversion), and its bindings read only the
    fields [name], [status] and [role] and set only [text], [fill] and
    [visible]. *)
Theorem template_bindings_fields (id : string) (t : Template.GraphObject) :
  (id, t) ∈ template_table →
  Template.bind "text" "name" ∈ Template.all_bindings t
  ∧ ∀ b, b ∈ Template.all_bindings t →
         Template.source b ∈ ["name"; "status"; "role"]
         ∧ Template.target b ∈ ["text"; "fill"; "visible"].
Proof.
  unfold template_table. intros Hin.
  repeat (apply elem_of_cons in Hin as [[= -> ->] | Hin];
          [split; [simpl; in_list|];
           simpl; intros b Hb;
           repeat (apply elem_of_cons in Hb as [-> | Hb];
                   [split; simpl; in_list|]);
           by apply elem_of_nil in Hb|]).
  by apply elem_of_nil in Hin.
Qed.

Lemma template_bindings_fields_witness :
  Template.bind "text" "name" ∈ Template.all_bindings Template.composition.
Proof.
  apply (template_bindings_fields "composition" Template.composition).
  unfold template_table. in_list.
Defined.

(** ** Selecting examples, composed *)

(** X8: [selectExample] is idempotent: selecting the same id twice in a row
    gives the page that selecting it once gives, for known and unknown ids
    alike. *)
Theorem selectExample_idempotent (id : string) (s : State) :
  selectExample id (selectExample id s) = selectExample id s.
Proof. unfold selectExample, loadExample. by repeat case_decide. Qed.

(** X9: the last known selection wins: after [selectExample(id2)] with a
    known [id2], the page does not depend on which example, known or not, was
    selected just before. *)
Theorem selectExample_last_known_wins (id1 id2 : string) (s : State) :
  id2 ∈ known_ids →
  selectExample id2 (selectExample id1 s) = selectExample id2 s.
Proof.
  rewrite known_ids_eq. intros Hid.
  repeat (apply elem_of_cons in Hid as [-> | Hid];
          [unfold selectExample, loadExample; simpl;
           by repeat case_decide|]).
  by apply elem_of_nil in Hid.
Qed.

Lemma selectExample_last_known_wins_witness :
  selectExample "events" (selectExample "no-such-example" ngAfterViewInit)
  = selectExample "events" ngAfterViewInit.
Proof.
  apply selectExample_last_known_wins. rewrite known_ids_eq. in_list.
Defined.

(** X10: [selectExample] never touches the data or the link template: for
    every id the heap (so [this.nodeDataArray] and [this.linkDataArray]) and
    the diagram's link template are as before. *)
Theorem selectExample_keeps_data (id : string) (s : State) :
  heap (selectExample id s) = heap s
  ∧ this_nodes (selectExample id s) = this_nodes s
  ∧ this_links (selectExample id s) = this_links s
  ∧ Go.linkTemplate (diagram (selectExample id s)) = Go.linkTemplate (diagram s).
Proof.
  unfold this_nodes, this_links, selectExample, loadExample.
  by repeat case_decide.
Qed.

(** ** Invariants of the pages reachable from startup *)

Lemma lift_model_call_frame op s :
  let s' := after (lift (Go.model_call op) s) s in
  currentExample s' = currentExample s
  ∧ Go.nodeTemplate (diagram s') = Go.nodeTemplate (diagram s)
  ∧ Go.linkTemplate (diagram s') = Go.linkTemplate (diagram s).
Proof.
  unfold lift, Go.model_call.
  by destruct (op _) as [[g es]|e].
Qed.

(** Adding, removing, toggling and picking leave the signal and both
    templates alone. *)
Lemma step_edit_frame a s :
  (∀ id, a ≠ SelectExample id) →
  currentExample (step a s) = currentExample s
  ∧ Go.nodeTemplate (diagram (step a s)) = Go.nodeTemplate (diagram s)
  ∧ Go.linkTemplate (diagram (step a s)) = Go.linkTemplate (diagram s).
Proof.
  intros Ha. destruct a as [p| | | |id]; simpl.
  - unfold select, Go.select. by case_match.
  - apply lift_model_call_frame.
  - unfold removeSelectedNode.
    destruct (Go.selection_first (diagram s)) as [[k|l]|]; try done.
    destruct (Go.data _ _ k) as [r|]; [|done]. apply lift_model_call_frame.
  - unfold toggleStatus.
    destruct (Go.selection_first (diagram s)) as [[k|l]|]; try done.
    destruct (Go.data _ _ k) as [r|]; [|done]. apply lift_model_call_frame.
  - by destruct (Ha id).
Qed.

Lemma template_table_functional id t t' :
  (id, t) ∈ template_table → (id, t') ∈ template_table → t = t'.
Proof.
  unfold template_table. intros H H'.
  repeat (apply elem_of_cons in H as [[= -> ->] | H];
          [repeat (apply elem_of_cons in H' as [H' | H'];
                   [first [discriminate H' | by injection H' as ->]|]);
           by apply elem_of_nil in H'|]).
  by apply elem_of_nil in H.
Qed.

Lemma template_table_known id t : (id, t) ∈ template_table → id ∈ known_ids.
Proof.
  intros H. rewrite <- template_table_ids.
  by apply (list_elem_of_fmap_2 fst) in H.
Qed.

(** X11: on every page reachable from startup the diagram's node template
    is one of the eight templates of [loadExample], the link template is the
    one [initDiagram] installed, and whenever the [currentExample] signal
    holds a known id the node template is the template of that id. *)
Theorem run_template_matches_example (acts : list action) :
  let s := run acts ngAfterViewInit in
  (∃ id, (id, Go.nodeTemplate (diagram s)) ∈ template_table)
  ∧ Go.linkTemplate (diagram s) = Template.linkTemplate0
  ∧ template_matches_example s.
Proof.
  assert (H : ∀ s,
    (∃ id, (id, Go.nodeTemplate (diagram s)) ∈ template_table)
    ∧ Go.linkTemplate (diagram s) = Template.linkTemplate0
    ∧ template_matches_example s →
    (∃ id, (id, Go.nodeTemplate (diagram (run acts s))) ∈ template_table)
    ∧ Go.linkTemplate (diagram (run acts s)) = Template.linkTemplate0
    ∧ template_matches_example (run acts s)).
  { induction acts as [|a acts IH]; intros s Hs; simpl; [done|].
    apply IH. destruct Hs as (Hin & Hlink & Hmatch).
    assert (Hcase : (∃ id, a = SelectExample id) ∨ ∀ id, a ≠ SelectExample id)
      by (destruct a; eauto).
    destruct Hcase as [[id ->] | Hne].
    - simpl. destruct (selectExample_keeps_data id s) as (_ & _ & _ & Hl).
      rewrite Hl. split_and!; [|done|].
      + destruct (decide (id ∈ known_ids)) as [Hid | Hid].
        * destruct (selectExample_known id s Hid) as (t & Ht & ->). by exists id.
        * unfold selectExample. by rewrite loadExample_unknown.
      + unfold template_matches_example.
        rewrite selectExample_currentExample. intros t Ht.
        pose proof (template_table_known _ _ Ht) as Hid.
        destruct (selectExample_known id s Hid) as (t' & Ht' & ->). simpl.
        by eapply template_table_functional.
    - destruct (step_edit_frame a s Hne) as (Hc & Hn & Hl).
      unfold template_matches_example. by rewrite Hc, Hn, Hl. }
  apply H. split_and!.
  - exists "mental-model". vm_compute. in_list.
  - reflexivity.
  - intros t Ht. change (currentExample ngAfterViewInit) with "mental-model" in Ht.
    eapply template_table_functional; [|exact Ht]. vm_compute. in_list.
Qed.

(** X12: on every page reachable from startup the diagram's model still
    holds the component's own arrays, so what [logModelData()] writes is
    exactly [this.nodeDataArray] and [this.linkDataArray]: [addNode()] reads
    its keys from the very array the model edits. *)
Theorem logModelData_is_component_data (acts : list action) :
  let s := run acts ngAfterViewInit in
  logModelData s = (this_nodes s, this_links s).
Proof.
  intros s. destruct (run_aliased acts _ ngAfterViewInit_aliased) as [Hn Hl].
  fold s in Hn, Hl.
  unfold logModelData, model_nodes, model_links, Go.graph_of, this_nodes, this_links.
  simpl. by rewrite Hn, Hl.
Qed.

(** ** The hover handlers of the [events] template *)

Lemma GraphObject_nested_ind (P : Template.GraphObject → Prop) :
  (∀ f ps bs, P (Template.Shape f ps bs)) →
  (∀ t ps bs, P (Template.TextBlock t ps bs)) →
  (∀ ty ps es, Forall P es → P (Template.Panel ty ps es)) →
  (∀ ty ps es, Forall P es → P (Template.Node ty ps es)) →
  (∀ es, Forall P es → P (Template.Link es)) →
  ∀ g, P g.
Proof.
  intros Hs Ht Hp Hn Hl. fix IH 1.
  intros [f ps bs|t ps bs|ty ps es|ty ps es|es].
  - apply Hs.
  - apply Ht.
  - apply Hp. revert es. fix IHes 1.
    intros [|e es]; constructor; [apply IH | apply IHes].
  - apply Hn. revert es. fix IHes 1.
    intros [|e es]; constructor; [apply IH | apply IHes].
  - apply Hl. revert es. fix IHes 1.
    intros [|e es]; constructor; [apply IH | apply IHes].
Qed.

Section assignment.
Context (n k : string) (Hk : k ≠ "name").

Lemma get_set_prop_ne k' v ps :
  k' ≠ k → Events.get_prop k' (Events.set_prop k v ps) = Events.get_prop k' ps.
Proof.
  intros Hne. induction ps as [|[k0 v0] ps IH]; simpl.
  - by rewrite decide_False by done.
  - destruct (decide (k0 = k)) as [-> | Hk0]; simpl.
    + by rewrite !decide_False by done.
    + destruct (decide (k0 = k')); [done | exact IH].
Qed.

Lemma set_set_prop v1 v2 ps :
  Events.set_prop k v2 (Events.set_prop k v1 ps) = Events.set_prop k v2 ps.
Proof.
  induction ps as [|[k0 v0] ps IH]; simpl.
  - by rewrite decide_True.
  - destruct (decide (k0 = k)) as [-> | Hk0]; simpl.
    + by rewrite decide_True.
    + rewrite decide_False by done. by rewrite IH.
Qed.

Lemma set_prop_same v ps :
  Events.get_prop k ps = Some v → Events.set_prop k v ps = ps.
Proof.
  induction ps as [|[k0 v0] ps IH]; simpl; [done|].
  destruct (decide (k0 = k)) as [-> | Hk0]; [by intros [= ->]|].
  intros Hg. by rewrite IH.
Qed.

Lemma props_with_props ps g :
  (∀ es, g ≠ Template.Link es) →
  Events.props_of (Events.with_props ps g) = ps.
Proof. intros Hg. destruct g; try done. by destruct (Hg elements). Qed.

Lemma is_named_assigned v g :
  Events.is_named n g = true →
  Events.is_named n (Events.with_props (Events.set_prop k v (Events.props_of g)) g)
  = true.
Proof.
  destruct g as [f ps bs|t ps bs|ty ps es|ty ps es|es]; try done;
    unfold Events.is_named; simpl; by rewrite get_set_prop_ne.
Qed.

Lemma with_props_twice ps ps' g :
  Events.with_props ps' (Events.with_props ps g) = Events.with_props ps' g.
Proof. by destruct g. Qed.

Lemma with_props_same g : Events.with_props (Events.props_of g) g = g.
Proof. by destruct g. Qed.

Lemma assign_named_unfold v g :
  Events.assign_named n k v g
  = if Events.is_named n g
    then Some (Events.with_props (Events.set_prop k v (Events.props_of g)) g)
    else match g with
         | Template.Panel ty ps es =>
             Template.Panel ty ps <$> Events.update_first (Events.assign_named n k v) es
         | Template.Node ty ps es =>
             Template.Node ty ps <$> Events.update_first (Events.assign_named n k v) es
         | Template.Link es =>
             Template.Link <$> Events.update_first (Events.assign_named n k v) es
         | _ => None
         end.
Proof. by destruct g. Qed.

Lemma find_named_unfold g :
  Events.find_named n g
  = if Events.is_named n g then Some g
    else match g with
         | Template.Panel _ _ es | Template.Node _ _ es | Template.Link es =>
             Events.find_first (Events.find_named n) es
         | _ => None
         end.
Proof. by destruct g. Qed.

(** Whether the assignment finds its object does not depend on the value. *)
Lemma assign_named_None v1 v2 g :
  Events.assign_named n k v1 g = None → Events.assign_named n k v2 g = None.
Proof.
  revert g. apply (GraphObject_nested_ind (λ g,
    Events.assign_named n k v1 g = None → Events.assign_named n k v2 g = None));
    [intros f ps bs|intros t ps bs|intros ty ps es IH..|intros es IH];
    rewrite !assign_named_unfold; destruct (Events.is_named n _); try done;
    rewrite !fmap_None; clear -IH;
    (induction IH as [|e es He _ IHes]; simpl; [done|]);
    (destruct (Events.assign_named n k v1 e); [done|]);
    rewrite He by done; rewrite !fmap_None; exact IHes.
Qed.

Lemma update_first_assign_assign v1 v2 es es1 :
  Forall (λ g, ∀ g1, Events.assign_named n k v1 g = Some g1 →
                     Events.assign_named n k v2 g1 = Events.assign_named n k v2 g) es →
  Events.update_first (Events.assign_named n k v1) es = Some es1 →
  Events.update_first (Events.assign_named n k v2) es1
  = Events.update_first (Events.assign_named n k v2) es.
Proof.
  intros Hall. revert es1.
  induction Hall as [|e es He _ IH]; intros es1; simpl; [done|].
  destruct (Events.assign_named n k v1 e) as [e1|] eqn:E1.
  - intros [= <-]. simpl. rewrite (He e1 eq_refl).
    destruct (Events.assign_named n k v2 e) as [e2|] eqn:E2; [done|].
    by rewrite (assign_named_None v2 v1 e E2) in E1.
  - intros (es1' & Hes1' & ->)%fmap_Some. simpl.
    rewrite (assign_named_None v1 v2 e E1). by rewrite (IH es1' Hes1').
Qed.

Lemma assign_named_assign_here v1 v2 g g1 :
  Events.is_named n g = true →
  Events.assign_named n k v1 g = Some g1 →
  Events.assign_named n k v2 g1 = Events.assign_named n k v2 g.
Proof.
  intros Hn. rewrite (assign_named_unfold v1), Hn. intros Heq.
  apply (inj Some) in Heq. subst g1.
  rewrite !assign_named_unfold, (is_named_assigned _ _ Hn), Hn.
  rewrite with_props_twice. f_equal. f_equal.
  destruct g; try done; simpl; apply set_set_prop.
Qed.

(** The last assignment wins. *)
Lemma assign_named_assign v1 v2 g g1 :
  Events.assign_named n k v1 g = Some g1 →
  Events.assign_named n k v2 g1 = Events.assign_named n k v2 g.
Proof.
  revert g g1. apply (GraphObject_nested_ind (λ g, ∀ g1,
    Events.assign_named n k v1 g = Some g1 →
    Events.assign_named n k v2 g1 = Events.assign_named n k v2 g));
    [intros f ps bs|intros t ps bs|intros ty ps es IH..|intros es IH]; intros g1;
    (match goal with
     | |- Events.assign_named _ _ _ ?g = _ → _ =>
         destruct (Events.is_named n g) eqn:Hn;
         [by apply assign_named_assign_here|]
     end);
    rewrite (assign_named_unfold v1), Hn; try done;
    intros (es1 & Hes1 & ->)%fmap_Some;
    rewrite !(assign_named_unfold v2);
    (replace (Events.is_named n _) with false by (symmetry; exact Hn));
    rewrite Hn;
    by rewrite (update_first_assign_assign _ _ _ _ IH Hes1).
Qed.

Lemma find_named_None v g :
  Events.find_named n g = None → Events.assign_named n k v g = None.
Proof.
  revert g. apply (GraphObject_nested_ind (λ g,
    Events.find_named n g = None → Events.assign_named n k v g = None));
    [intros f ps bs|intros t ps bs|intros ty ps es IH..|intros es IH];
    rewrite find_named_unfold, assign_named_unfold;
    destruct (Events.is_named n _); try done;
    rewrite ?fmap_None; clear -IH;
    (induction IH as [|e es He _ IHes]; simpl; [done|]);
    (destruct (Events.find_named n e); [done|]);
    intros Hes; rewrite He by done; rewrite fmap_None; by apply IHes.
Qed.

(** Assigning the value the property already has changes nothing. *)
Lemma assign_named_same v g o :
  Events.find_named n g = Some o →
  Events.get_prop k (Events.props_of o) = Some v →
  Events.assign_named n k v g = Some g.
Proof.
  revert g. apply (GraphObject_nested_ind (λ g,
    Events.find_named n g = Some o →
    Events.get_prop k (Events.props_of o) = Some v →
    Events.assign_named n k v g = Some g));
    [intros f ps bs|intros t ps bs|intros ty ps es IH..|intros es IH];
    rewrite find_named_unfold, assign_named_unfold;
    destruct (Events.is_named n _); try done;
    try (intros [= <-] Hv; by rewrite (set_prop_same _ _ Hv));
    intros Hfind Hv;
    (assert (Hes : Events.update_first (Events.assign_named n k v) es = Some es);
     [|by rewrite Hes]);
    clear -IH Hfind Hv;
    (induction IH as [|e es He _ IHes]; simpl in *; [done|]);
    (destruct (Events.find_named n e) as [o'|] eqn:Ho;
     [injection Hfind as ->; by rewrite (He eq_refl Hv)|]);
    rewrite (find_named_None v e Ho); by rewrite (IHes Hfind).
Qed.

End assignment.

Lemma all_bindings_elements (es : list Template.GraphObject) :
  ((fix go (l : list Template.GraphObject) : list Template.Binding :=
      match l with
      | [] => []
      | e :: l' => Template.all_bindings e ++ go l'
      end) es)
  = concat (Template.all_bindings <$> es).
Proof. induction es as [|e es IH]; simpl; [done | by rewrite IH]. Qed.

Lemma all_bindings_with_props ps g :
  Template.all_bindings (Events.with_props ps g) = Template.all_bindings g.
Proof. by destruct g. Qed.

(** An assignment to a property leaves every binding of the part alone. *)
Lemma assign_named_bindings n k v g g1 :
  Events.assign_named n k v g = Some g1 →
  Template.all_bindings g1 = Template.all_bindings g.
Proof.
  revert g g1. apply (GraphObject_nested_ind (λ g, ∀ g1,
    Events.assign_named n k v g = Some g1 →
    Template.all_bindings g1 = Template.all_bindings g));
    [intros f ps bs|intros t ps bs|intros ty ps es IH..|intros es IH]; intros g1;
    rewrite assign_named_unfold;
    (destruct (Events.is_named n _);
     [intros Heq; apply (inj Some) in Heq; subst g1;
      apply all_bindings_with_props|]);
    try done;
    intros (es1 & Hes1 & ->)%fmap_Some;
    cbn [Template.all_bindings]; rewrite !all_bindings_elements; f_equal;
    clear -IH Hes1; revert es1 Hes1;
    (induction IH as [|e es He _ IHes]; intros es1; simpl; [done|]);
    (destruct (Events.assign_named n k v e) as [e1|] eqn:E1;
     [intros [= <-]; rewrite !fmap_cons; by rewrite (He e1 eq_refl)|]);
    intros (es1' & Hes1' & ->)%fmap_Some; rewrite !fmap_cons;
    by rewrite (IHes es1' Hes1').
Qed.

Lemma stroke_not_name : "stroke" ≠ "name".
Proof. discriminate. Qed.

(** X13: entering and leaving restores the part.  When the object named
    [SHAPE] has stroke [c], running the stroke handler with any colour and
    then the one with [c] gives back the part exactly; for the [events]
    template, whose shape starts ['black'], [mouseLeave] after [mouseEnter]
    leaves the part as it was built. *)
Theorem hover_round_trip (part : Template.GraphObject) (c c' : string) :
  Events.shape_stroke part = Some (Template.PString c) →
  Events.handle (Template.SetShapeStroke c)
    (Events.handle (Template.SetShapeStroke c') part)
  = part.
Proof.
  unfold Events.shape_stroke. intros Hstroke.
  destruct (Events.find_named "SHAPE" part) as [o|] eqn:Ho; [|done].
  simpl in Hstroke.
  pose proof (assign_named_same "SHAPE" "stroke" _ _ _ Ho Hstroke) as Hsame.
  unfold Events.handle.
  destruct (Events.assign_named "SHAPE" "stroke" (Template.PString c') part)
    as [g1|] eqn:E1; simpl.
  - by rewrite (assign_named_assign "SHAPE" "stroke" stroke_not_name _ _ _ _ E1),
      Hsame.
  - by rewrite Hsame.
Qed.

Lemma hover_round_trip_witness :
  Events.fire "mouseLeave" (Events.fire "mouseEnter" Template.events)
  = Template.events.
Proof.
  exact (hover_round_trip Template.events "black" "#02C39A" eq_refl).
Defined.

(** X14: of two stroke handlers run one after the other, the last one wins:
    the part is as if only the second had run (hovering twice is the same as
    hovering once). *)
Theorem stroke_handler_last_wins (part : Template.GraphObject) (c1 c2 : string) :
  Events.handle (Template.SetShapeStroke c2)
    (Events.handle (Template.SetShapeStroke c1) part)
  = Events.handle (Template.SetShapeStroke c2) part.
Proof.
  unfold Events.handle.
  destruct (Events.assign_named "SHAPE" "stroke" (Template.PString c1) part)
    as [g1|] eqn:E1; simpl; [|done].
  rewrite (assign_named_assign "SHAPE" "stroke" stroke_not_name _ _ _ _ E1).
  destruct (Events.assign_named "SHAPE" "stroke" (Template.PString c2) part)
    as [g2|] eqn:E2; simpl; [done|].
  by rewrite (assign_named_None "SHAPE" "stroke" _ _ _ E2) in E1.
Qed.

(** X15: a handler never changes what a part is bound to: after any handler
    the part has the same bindings, in the same order; and on a part with no
    object named [SHAPE] a handler changes nothing at all (the [if (shape)]
    guard). *)
Theorem handler_keeps_bindings (h : Template.Handler) (part : Template.GraphObject) :
  Template.all_bindings (Events.handle h part) = Template.all_bindings part
  ∧ (Events.find_named "SHAPE" part = None → Events.handle h part = part).
Proof.
  destruct h as [|color]; simpl; [done|].
  destruct (Events.assign_named "SHAPE" "stroke" (Template.PString color) part)
    as [g1|] eqn:E1; simpl.
  - split; [by eapply assign_named_bindings|].
    intros Hnone.
    by rewrite (find_named_None "SHAPE" "stroke" _ _ Hnone) in E1.
  - done.
Qed.

Lemma handler_keeps_bindings_witness :
  Events.handle (Template.SetShapeStroke "#02C39A") Template.composition
  = Template.composition.
Proof.
  apply (handler_keeps_bindings (Template.SetShapeStroke "#02C39A")
           Template.composition).
  reflexivity.
Defined.

(** X16: a pointer event changes a freshly built part of one of the eight
    templates only when it is [mouseEnter] on a part of the [events]
    template: the other templates declare no handlers, [click] only logs and
    alerts, and [mouseLeave] sets the stroke the shape already has. *)
Theorem only_mouseEnter_on_events_changes (id event : string)
    (t : Template.GraphObject) :
  (id, t) ∈ template_table →
  Events.fire event t ≠ t →
  id = "events" ∧ event = "mouseEnter".
Proof.
  unfold template_table. intros Hin Hfire.
  repeat (apply elem_of_cons in Hin as [[= -> ->] | Hin];
          [by destruct Hfire|]).
  apply elem_of_cons in Hin as [[= -> ->] | Hin];
    [|by apply elem_of_nil in Hin].
  split; [done|].
  destruct (decide (event = "mouseEnter")) as [-> | Henter]; [done|].
  destruct Hfire. unfold Events.fire. simpl.
  destruct (decide ("click" = event)); [done|].
  destruct (decide ("mouseEnter" = event)); [by subst|].
  by destruct (decide ("mouseLeave" = event)).
Qed.

Lemma only_mouseEnter_on_events_changes_witness :
  Events.fire "mouseEnter" Template.events ≠ Template.events
  ∧ "events" = "events" ∧ "mouseEnter" = "mouseEnter".
Proof.
  assert (Hne : Events.fire "mouseEnter" Template.events ≠ Template.events).
  { intros H. apply (f_equal Events.shape_stroke) in H.
    vm_compute in H. discriminate H. }
  split; [exact Hne|].
  apply (only_mouseEnter_on_events_changes "events" "mouseEnter" Template.events);
    [unfold template_table; in_list | exact Hne].
Defined.

(** ** Why no toggle made from the page can be undone *)

(** Handing edits to the undo manager never puts a transaction on the undo
    stack, recording or not: only [commitTransaction()] does. *)
Lemma record_edits_undoStack es u :
  Engine.undoStack (Engine.record_edits es u) = Engine.undoStack u.
Proof. unfold Engine.record_edits. by destruct (Engine.state u). Qed.

Lemma lift_model_call_undoStack op s :
  Engine.undoStack (undoManager (after (lift (Go.model_call op) s) s))
  = Engine.undoStack (undoManager s).
Proof.
  unfold lift, Go.model_call, undoManager.
  destruct (op _) as [[g es]|e]; simpl; [|done].
  apply record_edits_undoStack.
Qed.

Lemma step_undoStack_empty a s :
  Engine.undoStack (undoManager s) = [] →
  Engine.undoStack (undoManager (step a s)) = [].
Proof.
  intros Hs. destruct a as [p| | | |id]; simpl.
  - unfold select, Go.select. by case_match.
  - unfold addNode. by rewrite lift_model_call_undoStack.
  - unfold removeSelectedNode.
    destruct (Go.selection_first (diagram s)) as [[k|l]|]; try done.
    destruct (Go.data _ _ k) as [r|]; [|done].
    by rewrite lift_model_call_undoStack.
  - unfold toggleStatus.
    destruct (Go.selection_first (diagram s)) as [[k|l]|]; try done.
    destruct (Go.data _ _ k) as [r|]; [|done].
    by rewrite lift_model_call_undoStack.
  - unfold selectExample, loadExample. by repeat case_decide.
Qed.

(** The page's own methods never commit a transaction: on every page
    reachable from startup the undo stack is empty. *)
Lemma run_undoStack_empty (acts : list action) :
  Engine.undoStack (undoManager (run acts ngAfterViewInit)) = [].
Proof.
  assert (H : ∀ s, Engine.undoStack (undoManager s) = [] →
                   Engine.undoStack (undoManager (run acts s)) = []).
  { induction acts as [|a acts IH]; intros s Hs; simpl; [done|].
    by apply IH, step_undoStack_empty. }
  by apply H.
Qed.

(** So on every page reachable from startup with a node selected,
    [toggleStatus()] succeeds and the [undo()] that follows finds nothing to
    undo. *)
Lemma run_toggleStatus_then_undo_nothing (acts : list action) (k : JS.number) :
  let s := run acts ngAfterViewInit in
  Go.selection (diagram s) = Some (Go.NodePart k) →
  ∃ s1, toggleStatus s = Engine.Ok s1
        ∧ undo s1 = Engine.Err Engine.NothingToUndo.
Proof.
  intros s Hsel. subst s. set (s := run acts ngAfterViewInit) in *.
  destruct (run_selected_node_has_data acts k Hsel) as [r Hdata]. fold s in Hdata.
  destruct (toggleStatus_selected s k r Hsel Hdata)
    as (s1 & i & r1 & Ht & _ & _ & _ & Hu & _).
  exists s1. split; [exact Ht|].
  assert (Hstack : Engine.undoStack (undoManager s1) = []).
  { rewrite Hu, record_edits_undoStack. apply run_undoStack_empty. }
  unfold undo, lift, Go.history_call, Engine.undo. simpl.
  unfold undoManager in Hstack. by rewrite Hstack.
Qed.
